(** * Emergency claim workflow: the agent-to-agent handshake

    A shallow embedding of [src/types.ts]: the type declarations (lines
    2-32) and the [App] component that follows them (lines 34-385: the
    state hooks, [addLog], [handleFileUpload], [performA2AHandshake],
    [resetWorkflow] and the conditional rendering of the upload control),
    followed by the properties the specification states about them.

    Conventions of the embedding.
    - A JavaScript [number] is an IEEE 754 binary64 value: Rocq's primitive
      [float], compared with [PrimFloat.ltb] exactly as [<] compares.
    - The React state of [App] is the record [AppState]; every [setX] hook is
      a function [AppState -> AppState].
    - What the code reads from its environment is passed in explicitly: the
      strings [new Date().toLocaleTimeString()] returns, the string
      [Math.random().toString(36)] returns, the outcome of the file read and
      the answer of [analyzeDamage].
    - What the code does to its environment besides the state ([alert],
      [console.error], the gateway call) is returned as a list of [Effect]s.
    - The handlers are given twice: run from start to end with nothing in
      between ([handleFileUpload], [performA2AHandshake]), and cut at their
      [await]s into the turns of an event loop ([turn]), where resets and
      resumptions interleave.  [uninterrupted_is_handleFileUpload] relates
      the two. *)

From Stdlib Require Import Bool List String Ascii ZArith Lia PeanoNat.
From Stdlib Require Import Floats.
Import ListNotations.
Local Open Scope string_scope.
Local Open Scope list_scope.

(* ================================================================== *)
(** * The types (lines 2-32)                                           *)
(* ================================================================== *)

Inductive WorkflowStep : Type :=
| IDLE
| UPLOADING
| GEMINI_ANALYSIS
| A2A_HANDSHAKE
| COMPLETED.

Definition WorkflowStep_eqb (a b : WorkflowStep) : bool :=
  match a, b with
  | IDLE, IDLE
  | UPLOADING, UPLOADING
  | GEMINI_ANALYSIS, GEMINI_ANALYSIS
  | A2A_HANDSHAKE, A2A_HANDSHAKE
  | COMPLETED, COMPLETED => true
  | _, _ => false
  end.

(** [number]: a binary64 value. *)
Definition number : Type := float.

Inductive Intensity : Type := Low | Moderate | Severe | Catastrophic.

Module DamageReport.
Record t : Type := mk
  { intensity : Intensity
  ; estimatedCost : number
  ; identifiedItems : list string
  ; summary : string
  ; structuralIntegrityRisk : bool }.
End DamageReport.

Inductive Agent : Type := GoogleAgent | SalesforceAgent.
Inductive Protocol : Type := A2A | AP2.
Inductive LogStatus : Type := SENT | RECEIVED | PROCESSED.

(** [payload: any].  The controller only ever builds the three object
    literals below; each constructor stands for one of them and [method]
    gives its [method] field. *)
Inductive Payload : Type :=
| ProposeClaim (assessment : DamageReport.t) (agent_version : string)
| EvaluatePolicy (result : string) (threshold_applied : string)
| InitiatePayment (amount : number) (currency : string)
                  (settlement_network : string).

Definition method (p : Payload) : string :=
  match p with
  | ProposeClaim _ _ => "PROPOSE_CLAIM"
  | EvaluatePolicy _ _ => "EVALUATE_POLICY"
  | InitiatePayment _ _ _ => "INITIATE_PAYMENT"
  end.

Module HandshakeLog.
Record t : Type := mk
  { timestamp : string
  ; from : Agent
  ; to : Agent
  ; protocol : Protocol
  ; payload : Payload
  ; status : LogStatus }.
End HandshakeLog.

(** [Omit<HandshakeLog, 'timestamp'>], the argument of [addLog]. *)
Module LogInit.
Record t : Type := mk
  { from : Agent
  ; to : Agent
  ; protocol : Protocol
  ; status : LogStatus
  ; payload : Payload }.
End LogInit.

Inductive ClaimStatus : Type := APPROVED | MANUAL_REVIEW.

Module ClaimResult.
Record t : Type := mk
  { status : ClaimStatus
  ; paymentInitiated : bool
  ; referenceId : string
  ; report : DamageReport.t }.
End ClaimResult.

Definition Agent_eqb (a b : Agent) : bool :=
  match a, b with
  | GoogleAgent, GoogleAgent | SalesforceAgent, SalesforceAgent => true
  | _, _ => false
  end.

Definition LogStatus_eqb (a b : LogStatus) : bool :=
  match a, b with
  | SENT, SENT | RECEIVED, RECEIVED | PROCESSED, PROCESSED => true
  | _, _ => false
  end.

(* ================================================================== *)
(** * App: state                                                       *)
(* ================================================================== *)

Definition APPROVAL_THRESHOLD : number := 5000%float.

(** The five [useState] cells of [App]. *)
Record AppState : Type := mkApp
  { step : WorkflowStep
  ; report : option DamageReport.t
  ; logs : list HandshakeLog.t
  ; result : option ClaimResult.t
  ; previewUrl : option string }.

(** The initial values given to [useState]. *)
Definition initialState : AppState :=
  {| step := IDLE; report := None; logs := []; result := None;
     previewUrl := None |}.

Definition setStep (v : WorkflowStep) (s : AppState) : AppState :=
  {| step := v; report := report s; logs := logs s; result := result s;
     previewUrl := previewUrl s |}.

Definition setReport (v : option DamageReport.t) (s : AppState) : AppState :=
  {| step := step s; report := v; logs := logs s; result := result s;
     previewUrl := previewUrl s |}.

(** [setLogs] is called with an updater ([prev => ...]) in [addLog] and with
    a value in [resetWorkflow]; the updater form covers both. *)
Definition setLogs (f : list HandshakeLog.t -> list HandshakeLog.t)
                   (s : AppState) : AppState :=
  {| step := step s; report := report s; logs := f (logs s);
     result := result s; previewUrl := previewUrl s |}.

Definition setResult (v : option ClaimResult.t) (s : AppState) : AppState :=
  {| step := step s; report := report s; logs := logs s; result := v;
     previewUrl := previewUrl s |}.

Definition setPreviewUrl (v : option string) (s : AppState) : AppState :=
  {| step := step s; report := report s; logs := logs s; result := result s;
     previewUrl := v |}.

(** [{ ...log, timestamp: new Date().toLocaleTimeString() }] *)
Definition stamp (now : string) (log : LogInit.t) : HandshakeLog.t :=
  {| HandshakeLog.timestamp := now
   ; HandshakeLog.from := LogInit.from log
   ; HandshakeLog.to := LogInit.to log
   ; HandshakeLog.protocol := LogInit.protocol log
   ; HandshakeLog.payload := LogInit.payload log
   ; HandshakeLog.status := LogInit.status log |}.

(** [addLog]: [setLogs(prev => [...prev, {...log, timestamp}])]; [now] is
    the string the clock returns at the call. *)
Definition addLog (now : string) (log : LogInit.t) (s : AppState) : AppState :=
  setLogs (fun prev => prev ++ [stamp now log]) s.

(* ================================================================== *)
(** * App: the reference identifier                                    *)
(* ================================================================== *)

(** [String.prototype.toUpperCase] on the characters a base-36 rendering
    contains (digits, [a]-[z] and the point): the letters [a]-[z] move to
    [A]-[Z], every other character of the ASCII range stays. *)
Definition upper_ascii (c : ascii) : ascii :=
  let n := nat_of_ascii c in
  if (97 <=? n)%nat && (n <=? 122)%nat then ascii_of_nat (n - 32) else c.

Fixpoint toUpperCase (s : string) : string :=
  match s with
  | EmptyString => EmptyString
  | String c s' => String (upper_ascii c) (toUpperCase s')
  end.

(** [s.substr(start, length)] for a start inside [0 .. s.length]: at most
    [length] characters from position [start]. *)
Definition substr (start length : nat) (s : string) : string :=
  substring start length s.

(** [`CLM-${Math.random().toString(36).substr(2, 9).toUpperCase()}`], where
    [random36] is the string [Math.random().toString(36)] evaluated to. *)
Definition makeReferenceId (random36 : string) : string :=
  "CLM-" ++ toUpperCase (substr 2 9 random36).

(* ================================================================== *)
(** * App: performA2AHandshake                                         *)
(* ================================================================== *)

(** What one run of the handshake reads from its environment: the clock at
    each [addLog] and the random draw of the finalization. *)
Record HandshakeEnv : Type := mkHEnv
  { now_propose : string
  ; now_evaluate : string
  ; now_settle : string
  ; random36 : string }.

(** [`$${APPROVAL_THRESHOLD}`]: the template literal renders 5000 as
    its decimal digits. *)
Definition threshold_applied_text : string := "$5000".

(** The three object literals handed to [addLog]. *)
Definition proposal (report : DamageReport.t) : LogInit.t :=
  {| LogInit.from := GoogleAgent
   ; LogInit.to := SalesforceAgent
   ; LogInit.protocol := A2A
   ; LogInit.status := SENT
   ; LogInit.payload := ProposeClaim report "Gemini-3-Pro-Handshake-V1" |}.

Definition evaluation (approved : bool) : LogInit.t :=
  {| LogInit.from := SalesforceAgent
   ; LogInit.to := GoogleAgent
   ; LogInit.protocol := A2A
   ; LogInit.status := PROCESSED
   ; LogInit.payload :=
       EvaluatePolicy
         (if approved then "AUTO_APPROVE" else "REQUIRE_MANUAL_REVIEW")
         threshold_applied_text |}.

Definition settlement (report : DamageReport.t) : LogInit.t :=
  {| LogInit.from := SalesforceAgent
   ; LogInit.to := SalesforceAgent
   ; LogInit.protocol := AP2
   ; LogInit.status := SENT
   ; LogInit.payload :=
       InitiatePayment (DamageReport.estimatedCost report) "USD"
                       "FED_INSTANT_SETTLEMENT" |}.

(** Step 1, up to the first [await]. *)
Definition handshake_propose (now : string) (report : DamageReport.t)
                             (s : AppState) : AppState :=
  addLog now (proposal report) s.

(** [const isApproved = report.estimatedCost < APPROVAL_THRESHOLD] *)
Definition isApproved (report : DamageReport.t) : bool :=
  (DamageReport.estimatedCost report <? APPROVAL_THRESHOLD)%float.

(** Step 2, between the first and the second [await]. *)
Definition handshake_evaluate (now : string) (approved : bool)
                              (s : AppState) : AppState :=
  addLog now (evaluation approved) s.

(** Step 3, between the second and the third [await]. *)
Definition handshake_settle (now : string) (approved : bool)
                            (report : DamageReport.t)
                            (s : AppState) : AppState :=
  if approved then addLog now (settlement report) s else s.

(** After the third [await]: [setResult] and [setStep(COMPLETED)]. *)
Definition handshake_finalize (random36 : string) (approved : bool)
                              (report : DamageReport.t)
                              (s : AppState) : AppState :=
  setStep COMPLETED
    (setResult
       (Some {| ClaimResult.status :=
                  if approved then APPROVED else MANUAL_REVIEW
              ; ClaimResult.paymentInitiated := approved
              ; ClaimResult.referenceId := makeReferenceId random36
              ; ClaimResult.report := report |})
       s).

(** One run of [performA2AHandshake] from start to end, nothing else
    touching the state in between. *)
Definition performA2AHandshake (env : HandshakeEnv) (report : DamageReport.t)
                               (s : AppState) : AppState :=
  let s1 := handshake_propose (now_propose env) report s in
  let approved := isApproved report in
  let s2 := handshake_evaluate (now_evaluate env) approved s1 in
  let s3 := handshake_settle (now_settle env) approved report s2 in
  handshake_finalize (random36 env) approved report s3.

(** [resetWorkflow] *)
Definition resetWorkflow (s : AppState) : AppState :=
  setPreviewUrl None
    (setResult None
       (setLogs (fun _ => [])
          (setReport None
             (setStep IDLE s)))).

(* ================================================================== *)
(** * App: handleFileUpload                                            *)
(* ================================================================== *)

(** [event.target.files?.[0]]: the media type is all the handler reads of
    the file itself. *)
Record File : Type := mkFile { type : string }.

(** The failure [analyzeDamage] rejects with. *)
Record AnalysisError : Type := mkError { message : string }.

(** What the handler does to the outside. *)
Inductive Effect : Type :=
| ReadAsDataURL (file : File)
| AnalyzeDamage (base64 : option string) (mimeType : string)
| ConsoleError (msg : string) (err : AnalysisError)
| Alert (msg : string)
| UncaughtTypeError.

(** What one upload reads from its environment: [reader.result] when
    [onloadend] fires ([None] for [null], a failed read), the answer of the
    analysis gateway, and the environment of the handshake. *)
Record UploadEnv : Type := mkUEnv
  { reader_result : option string
  ; analyzeDamage : option string -> string ->
                    DamageReport.t + AnalysisError
  ; handshake_env : HandshakeEnv }.

(** [s.split(',')]: the pieces of [s] between commas, in order. *)
Fixpoint split_comma_aux (acc : string) (s : string) : list string :=
  match s with
  | EmptyString => [acc]
  | String c s' =>
      if Ascii.eqb c ","%char then acc :: split_comma_aux EmptyString s'
      else split_comma_aux (acc ++ String c EmptyString) s'
  end.

Definition split_comma (s : string) : list string :=
  split_comma_aux EmptyString s.

Definition alert_text : string :=
  "Verification failed. Please ensure the image/video clearly shows the damage.".

(** [handleFileUpload], run from the change event to the end of the
    [onloadend] callback, nothing else touching the state in between.
    [file] is [event.target.files?.[0]]. *)
Definition handleFileUpload (env : UploadEnv) (file : option File)
                            (s : AppState) : AppState * list Effect :=
  match file with
  | None => (s, [])
  | Some f =>
      let s1 := setStep UPLOADING s in
      match reader_result env with
      | None =>
          (* [(null).split] throws before the [try] is entered *)
          (s1, [ReadAsDataURL f; UncaughtTypeError])
      | Some url =>
          let base64 := nth_error (split_comma url) 1 in
          let s2 := setPreviewUrl (Some url) s1 in
          let s3 := setStep GEMINI_ANALYSIS s2 in
          match analyzeDamage env base64 (type f) with
          | inl damageReport =>
              let s4 := setReport (Some damageReport) s3 in
              let s5 := setStep A2A_HANDSHAKE s4 in
              (performA2AHandshake (handshake_env env) damageReport s5,
               [ReadAsDataURL f; AnalyzeDamage base64 (type f)])
          | inr error =>
              (setStep IDLE s3,
               [ReadAsDataURL f; AnalyzeDamage base64 (type f);
                ConsoleError "Analysis failed" error; Alert alert_text])
          end
      end
  end.

(* ================================================================== *)
(** * App: what is rendered                                            *)
(* ================================================================== *)

(** [{step === WorkflowStep.IDLE && (<div> <input type="file"
    onChange={handleFileUpload} /> ... </div>)}]: the file input, with its
    change handler, is part of the page only while the step is [IDLE]. *)
Definition fileInput_onChange (env : UploadEnv) (s : AppState)
  : option (option File -> AppState * list Effect) :=
  if WorkflowStep_eqb (step s) IDLE
  then Some (fun file => handleFileUpload env file s)
  else None.

(** [<button onClick={resetWorkflow}>], rendered in every state. *)
Definition resetButton_onClick (s : AppState) : AppState * list Effect :=
  (resetWorkflow s, []).

(** What the user can do to the page. *)
Inductive UserAction : Type :=
| UploadEvidence (file : option File)
| ClickReset.

(** A user action reaches the handler of the element it is aimed at; with
    no such element on the page no handler runs. *)
Definition userAction (env : UploadEnv) (a : UserAction) (s : AppState)
  : AppState * list Effect :=
  match a with
  | UploadEvidence file =>
      match fileInput_onChange env s with
      | Some onChange => onChange file
      | None => (s, [])
      end
  | ClickReset => resetButton_onClick s
  end.

(* ================================================================== *)
(** * App on the event loop                                            *)
(* ================================================================== *)

(** [handleFileUpload] and [performA2AHandshake] are [async]: each runs up
    to an [await] (or up to the registration of [onloadend]), gives the
    event loop back, and is resumed later.  A [Task] is one such suspended
    handler, with the variables it has captured. *)
Inductive Task : Type :=
| AwaitLoadEnd (file : File)
| AwaitAnalysis (file : File)
| AwaitDelay1 (report : DamageReport.t)
| AwaitDelay2 (report : DamageReport.t) (approved : bool)
| AwaitDelay3 (report : DamageReport.t) (approved : bool).

(** What resumes a task, with what the resumed code then reads. *)
Inductive Wakeup : Type :=
| LoadEnd (reader_result : option string)
| AnalysisSettled (answer : DamageReport.t + AnalysisError) (now : string)
| TimerFired (now : string) (random36 : string).

(** The synchronous part of [handleFileUpload]. *)
Definition upload_begin (file : option File) (s : AppState)
  : AppState * option Task :=
  match file with
  | None => (s, None)
  | Some f => (setStep UPLOADING s, Some (AwaitLoadEnd f))
  end.

(** One resumption: the new state and the task left suspended, if any;
    [None] when the wake-up is not the one the task waits for. *)
Definition resume (t : Task) (w : Wakeup) (s : AppState)
  : option (AppState * option Task) :=
  match t, w with
  | AwaitLoadEnd _, LoadEnd None => Some (s, None)
  | AwaitLoadEnd f, LoadEnd (Some url) =>
      Some (setStep GEMINI_ANALYSIS (setPreviewUrl (Some url) s),
            Some (AwaitAnalysis f))
  | AwaitAnalysis _, AnalysisSettled (inl damageReport) now =>
      Some (handshake_propose now damageReport
              (setStep A2A_HANDSHAKE (setReport (Some damageReport) s)),
            Some (AwaitDelay1 damageReport))
  | AwaitAnalysis _, AnalysisSettled (inr _) _ => Some (setStep IDLE s, None)
  | AwaitDelay1 r, TimerFired now _ =>
      let approved := isApproved r in
      Some (handshake_evaluate now approved s, Some (AwaitDelay2 r approved))
  | AwaitDelay2 r approved, TimerFired now _ =>
      Some (handshake_settle now approved r s, Some (AwaitDelay3 r approved))
  | AwaitDelay3 r approved, TimerFired _ rnd =>
      Some (handshake_finalize rnd approved r s, None)
  | _, _ => None
  end.

Record System : Type := mkSys
  { app : AppState
  ; pending : list Task }.

Definition initialSystem : System :=
  {| app := initialState; pending := [] |}.

Inductive Event : Type :=
| EvUpload (file : option File)
| EvReset
| EvWake (i : nat) (w : Wakeup).

(** The pending tasks after task [i] has run and left [t'] behind. *)
Definition settle_task (i : nat) (t' : option Task) (ts : list Task)
  : list Task :=
  firstn i ts ++
  match t' with Some t => [t] | None => [] end ++
  skipn (S i) ts.

(** One turn of the event loop.  An event with no receiver (an upload with
    no file input on the page, a wake-up for no task) leaves everything as
    it is. *)
Definition turn (ev : Event) (sys : System) : System :=
  match ev with
  | EvUpload file =>
      if WorkflowStep_eqb (step (app sys)) IDLE then
        let '(s', t) := upload_begin file (app sys) in
        {| app := s'
         ; pending := pending sys ++
                      match t with Some t => [t] | None => [] end |}
      else sys
  | EvReset => {| app := resetWorkflow (app sys); pending := pending sys |}
  | EvWake i w =>
      match nth_error (pending sys) i with
      | None => sys
      | Some t =>
          match resume t w (app sys) with
          | None => sys
          | Some (s', t') =>
              {| app := s'; pending := settle_task i t' (pending sys) |}
          end
      end
  end.

Definition turns (evs : list Event) (sys : System) : System :=
  fold_left (fun acc ev => turn ev acc) evs sys.

Definition reachable (sys : System) : Prop :=
  exists evs, sys = turns evs initialSystem.

(** The events of one upload that nothing interrupts, with the same
    environment as the sequential [handleFileUpload] above. *)
Definition uninterrupted (env : UploadEnv) (f : File) : list Event :=
  EvUpload (Some f) ::
  match reader_result env with
  | None => [EvWake 0 (LoadEnd None)]
  | Some url =>
      let h := handshake_env env in
      let answer :=
        analyzeDamage env (nth_error (split_comma url) 1) (type f) in
      EvWake 0 (LoadEnd (Some url)) ::
      EvWake 0 (AnalysisSettled answer (now_propose h)) ::
      match answer with
      | inl _ =>
          [EvWake 0 (TimerFired (now_evaluate h) (random36 h));
           EvWake 0 (TimerFired (now_settle h) (random36 h));
           EvWake 0 (TimerFired (now_settle h) (random36 h))]
      | inr _ => []
      end
  end.

(* ================================================================== *)
(** * Predicates the properties are stated with                        *)
(* ================================================================== *)

Definition opposite (a : Agent) : Agent :=
  match a with
  | GoogleAgent => SalesforceAgent
  | SalesforceAgent => GoogleAgent
  end.

(** The three kinds of entry, told apart by the [method] of the payload. *)
Definition is_proposal (e : HandshakeLog.t) : Prop :=
  method (HandshakeLog.payload e) = "PROPOSE_CLAIM".
Definition is_evaluation (e : HandshakeLog.t) : Prop :=
  method (HandshakeLog.payload e) = "EVALUATE_POLICY".
Definition is_settlement (e : HandshakeLog.t) : Prop :=
  method (HandshakeLog.payload e) = "INITIATE_PAYMENT".

(** Every [PROCESSED] entry of [l] has, earlier in [l], a [SENT] entry from
    the other agent. *)
Definition processed_after_sent (l : list HandshakeLog.t) : Prop :=
  forall j e,
    nth_error l j = Some e ->
    HandshakeLog.status e = PROCESSED ->
    exists i p,
      (i < j)%nat /\ nth_error l i = Some p /\
      HandshakeLog.status p = SENT /\
      HandshakeLog.from p = opposite (HandshakeLog.from e).

(** The same, decided. *)
Fixpoint processed_after_sentb (seen rest : list HandshakeLog.t) : bool :=
  match rest with
  | [] => true
  | e :: rest' =>
      (if LogStatus_eqb (HandshakeLog.status e) PROCESSED
       then existsb
              (fun p => LogStatus_eqb (HandshakeLog.status p) SENT &&
                        Agent_eqb (HandshakeLog.from p)
                                  (opposite (HandshakeLog.from e)))
              seen
       else true)
      && processed_after_sentb (seen ++ [e]) rest'
  end.

Definition sent_or_processed (e : HandshakeLog.t) : Prop :=
  HandshakeLog.status e = SENT \/ HandshakeLog.status e = PROCESSED.

Definition not_payment (e : HandshakeLog.t) : Prop :=
  HandshakeLog.protocol e <> AP2.

(** [paymentInitiated] is true iff [status] is [APPROVED]. *)
Definition payment_iff_approved (cr : ClaimResult.t) : Prop :=
  ClaimResult.paymentInitiated cr = true <-> ClaimResult.status cr = APPROVED.

(** The nine characters of a draw that reach the identifier. *)
Definition draw_fragment (random36 : string) : string :=
  toUpperCase (substr 2 9 random36).

(** Every entry [P] holds of stands before every entry [Q] holds of. *)
Definition precedes (P Q : HandshakeLog.t -> Prop)
                    (l : list HandshakeLog.t) : Prop :=
  forall i j x y,
    nth_error l i = Some x -> nth_error l j = Some y ->
    P x -> Q y -> (i < j)%nat.

(** The number of calls of the analysis gateway among the effects. *)
Definition gateway_calls (effects : list Effect) : nat :=
  List.length
    (filter (fun e => match e with AnalyzeDamage _ _ => true | _ => false end)
            effects).

(** What holds of the state after every turn of the event loop: the
    transcript has [SENT] and [PROCESSED] entries only, and a result, once
    there, pairs [paymentInitiated] with [APPROVED] and has the status the
    cost of its own report asks for. *)
Definition result_ok (res : option ClaimResult.t) : Prop :=
  forall cr, res = Some cr ->
    payment_iff_approved cr /\
    (ClaimResult.status cr = APPROVED <->
     isApproved (ClaimResult.report cr) = true).

Definition state_ok (s : AppState) : Prop :=
  Forall sent_or_processed (logs s) /\ result_ok (result s).

(** A suspended handshake carries the verdict of its own report. *)
Definition task_ok (t : Task) : Prop :=
  match t with
  | AwaitDelay2 r approved | AwaitDelay3 r approved => approved = isApproved r
  | _ => True
  end.

Definition system_ok (sys : System) : Prop :=
  state_ok (app sys) /\ Forall task_ok (pending sys).

(** A session at the page: user actions one after the other, each handler
    run to its end before the next action. *)
Definition session (acts : list (UploadEnv * UserAction)) (s : AppState)
  : AppState :=
  fold_left (fun acc ea => fst (userAction (fst ea) (snd ea) acc)) acts s.

(** In [IDLE] there is no report, no transcript and no result. *)
Definition idle_clear (s : AppState) : Prop :=
  step s = IDLE -> report s = None /\ logs s = [] /\ result s = None.

(** What holds of the state after every action of a session at the page. *)
Definition session_ok (s : AppState) : Prop :=
  idle_clear s /\ processed_after_sent (logs s).

(* ================================================================== *)
(** * Sample inputs                                                    *)
(* ================================================================== *)

(** The reports of the scenarios the specification lists. *)
Definition scenario_report (i : Intensity) (cost : number) : DamageReport.t :=
  {| DamageReport.intensity := i
   ; DamageReport.estimatedCost := cost
   ; DamageReport.identifiedItems := ["sofa"; "drywall"]
   ; DamageReport.summary := "Flooded ground floor"
   ; DamageReport.structuralIntegrityRisk := false |}.

Definition scenario_env : HandshakeEnv :=
  {| now_propose := "10:15:01 AM"
   ; now_evaluate := "10:15:02 AM"
   ; now_settle := "10:15:04 AM"
   ; random36 := "0.4fzyo82mvyr" |}.

Definition scenario_run (i : Intensity) (cost : number) : AppState :=
  performA2AHandshake scenario_env (scenario_report i cost)
    (setStep A2A_HANDSHAKE
       (setReport (Some (scenario_report i cost)) initialState)).

(** A second report and environment, unlike the first in every field but
    the cost. *)
Definition other_report (cost : number) : DamageReport.t :=
  {| DamageReport.intensity := Catastrophic
   ; DamageReport.estimatedCost := cost
   ; DamageReport.identifiedItems := []
   ; DamageReport.summary := "Roof torn off"
   ; DamageReport.structuralIntegrityRisk := true |}.

Definition other_env : HandshakeEnv :=
  {| now_propose := "11:40:10 PM"
   ; now_evaluate := "11:40:12 PM"
   ; now_settle := "11:40:13 PM"
   ; random36 := "0.4fzyo82mvzzz" |}.

(** An upload whose analysis succeeds with [r], and one whose analysis
    fails. *)
Definition sample_file : File := {| type := "image/png" |}.

Definition sample_url : string := "data:image/png;base64,iVBORw0KGgo=".

Definition upload_ok (h : HandshakeEnv) (r : DamageReport.t) : UploadEnv :=
  {| reader_result := Some sample_url
   ; analyzeDamage := fun _ _ => inl r
   ; handshake_env := h |}.

Definition upload_failing : UploadEnv :=
  {| reader_result := Some sample_url
   ; analyzeDamage := fun _ _ => inr {| message := "damage not visible" |}
   ; handshake_env := scenario_env |}.

(** The draw 0.5, whose rendering in base 36 is [0.i]. *)
Definition half_env (now : string) : HandshakeEnv :=
  {| now_propose := now; now_evaluate := now; now_settle := now
   ; random36 := "0.i" |}.

(* ================================================================== *)
(** * App: the rest of the page (lines 153-383)                        *)
(* ================================================================== *)

Definition ClaimStatus_eqb (a b : ClaimStatus) : bool :=
  match a, b with
  | APPROVED, APPROVED | MANUAL_REVIEW, MANUAL_REVIEW => true
  | _, _ => false
  end.

(** [{step === WorkflowStep.IDLE && (<div> ... </div>)}], the upload
    area. *)
Definition uploadArea (s : AppState) : bool :=
  WorkflowStep_eqb (step s) IDLE.

(** [{(step === UPLOADING || step === GEMINI_ANALYSIS) && (...)}], the
    processing panel, with the text of its heading. *)
Definition processingPanel (s : AppState) : option string :=
  if WorkflowStep_eqb (step s) UPLOADING
     || WorkflowStep_eqb (step s) GEMINI_ANALYSIS
  then Some (if WorkflowStep_eqb (step s) UPLOADING
             then "Ingesting Evidence..."
             else "Gemini AI Vision Analysis...")
  else None.

(** [{(step === A2A_HANDSHAKE || step === COMPLETED) && report && (...)}],
    the report panel, with the report it displays. *)
Definition reportPanel (s : AppState) : option DamageReport.t :=
  if WorkflowStep_eqb (step s) A2A_HANDSHAKE
     || WorkflowStep_eqb (step s) COMPLETED
  then report s
  else None.

(** [{(step === A2A_HANDSHAKE || step === COMPLETED) &&
    <Terminal logs={logs} />}] *)
Definition terminal (s : AppState) : option (list HandshakeLog.t) :=
  if WorkflowStep_eqb (step s) A2A_HANDSHAKE
     || WorkflowStep_eqb (step s) COMPLETED
  then Some (logs s)
  else None.

(** The colour of the intensity badge: [bg-red-900] for [Catastrophic],
    [bg-orange-900] for [Severe], [bg-blue-900] otherwise. *)
Inductive BadgeColour : Type := BadgeRed | BadgeOrange | BadgeBlue.

Definition intensityBadge (r : DamageReport.t) : BadgeColour :=
  match DamageReport.intensity r with
  | Catastrophic => BadgeRed
  | Severe => BadgeOrange
  | _ => BadgeBlue
  end.

(** [report.estimatedCost > APPROVAL_THRESHOLD ? 'bg-orange-500' :
    'bg-emerald-500'], the colour of the cost bar. *)
Definition barOrange (r : DamageReport.t) : bool :=
  (APPROVAL_THRESHOLD <? DamageReport.estimatedCost r)%float.

(** [Math.min(x, y)]: [NaN] when an argument is [NaN]; otherwise the
    smaller one, [-0] counting as smaller than [+0]. *)
Definition Math_min (x y : number) : number :=
  if is_nan x || is_nan y then nan
  else if (x <? y)%float then x
  else if (y <? x)%float then y
  else match classify x with NZero => x | _ => y end.

(** [Math.min((report.estimatedCost / 10000) * 100, 100)], the width of
    the cost bar in percent. *)
Definition barWidth (r : DamageReport.t) : number :=
  Math_min ((DamageReport.estimatedCost r / 10000) * 100)%float 100%float.

(** The props of [<A2AVisualizer>]: [isProcessing={step ===
    A2A_HANDSHAKE}] and [step={step === COMPLETED ? 3 : step ===
    A2A_HANDSHAKE ? logs.length : 0}]. *)
Definition visualizer_isProcessing (s : AppState) : bool :=
  WorkflowStep_eqb (step s) A2A_HANDSHAKE.

Definition visualizer_step (s : AppState) : nat :=
  if WorkflowStep_eqb (step s) COMPLETED then 3
  else if WorkflowStep_eqb (step s) A2A_HANDSHAKE then List.length (logs s)
  else 0.

(** The paragraph of the status card: the payout sentence, with the amount
    [report?.estimatedCost] read from the report cell of the state
    ([None] where JavaScript has [undefined]), or the escalation
    sentence. *)
Inductive CardMessage : Type :=
| PayoutAuthorized (amount : option number)
| Escalated.

(** [{result && (...)}], the final status card. *)
Record StatusCard : Type := mkCard
  { card_heading : string
  ; card_referenceId : string
  ; card_message : CardMessage
  ; card_paymentBox : option (option number) }.

Definition statusCard (s : AppState) : option StatusCard :=
  match result s with
  | None => None
  | Some res =>
      let approved := ClaimStatus_eqb (ClaimResult.status res) APPROVED in
      let amount := option_map DamageReport.estimatedCost (report s) in
      Some {| card_heading :=
                if approved then "Claim Auto-Approved"
                else "Manual Review Required"
            ; card_referenceId := ClaimResult.referenceId res
            ; card_message :=
                if approved then PayoutAuthorized amount else Escalated
            ; card_paymentBox :=
                if ClaimResult.paymentInitiated res then Some amount
                else None |}
  end.

(** [{!result && (...)}], the placeholder shown in place of the card. *)
Definition placeholder (s : AppState) : bool :=
  match result s with None => true | Some _ => false end.

(* ================================================================== *)
(** * Predicates of the further properties                             *)
(* ================================================================== *)

(** The states the event loop goes through, one per event. *)
Fixpoint trace (evs : list Event) (sys : System) : list System :=
  match evs with
  | [] => []
  | ev :: evs' => turn ev sys :: trace evs' (turn ev sys)
  end.

Definition is_reset (ev : Event) : bool :=
  match ev with EvReset => true | _ => false end.

(** No event of [evs] is a reset. *)
Definition reset_free (evs : list Event) : Prop :=
  forallb (fun ev => negb (is_reset ev)) evs = true.

(** Who sent an entry, with what status, under which protocol. *)
Definition kind (e : HandshakeLog.t) : Agent * LogStatus * Protocol :=
  (HandshakeLog.from e, HandshakeLog.status e, HandshakeLog.protocol e).

(** The kinds of the entries of one run, in order. *)
Definition run_kinds : list (Agent * LogStatus * Protocol) :=
  [(GoogleAgent, SENT, A2A); (SalesforceAgent, PROCESSED, A2A);
   (SalesforceAgent, SENT, AP2)].

(** [l] has the kinds of the first [k] entries of a run. *)
Definition run_prefix (k : nat) (l : list HandshakeLog.t) : Prop :=
  map kind l = firstn k run_kinds.

(** The step and the transcript that go with what is suspended, when no
    reset has happened: nothing (before an upload, after a failed read or
    analysis, or at completion), or the single handler in flight. *)
Definition phase_ok (sys : System) : Prop :=
  let s := app sys in
  match pending sys with
  | [] =>
      (step s = IDLE /\ logs s = [] /\ result s = None) \/
      (step s = UPLOADING /\ logs s = [] /\ result s = None) \/
      (step s = COMPLETED /\ exists cr,
         result s = Some cr /\
         run_prefix (if ClaimResult.paymentInitiated cr then 3 else 2)
                    (logs s))
  | [AwaitLoadEnd _] => step s = UPLOADING /\ logs s = [] /\ result s = None
  | [AwaitAnalysis _] =>
      step s = GEMINI_ANALYSIS /\ logs s = [] /\ result s = None
  | [AwaitDelay1 _] =>
      step s = A2A_HANDSHAKE /\ run_prefix 1 (logs s) /\ result s = None
  | [AwaitDelay2 _ _] =>
      step s = A2A_HANDSHAKE /\ run_prefix 2 (logs s) /\ result s = None
  | [AwaitDelay3 _ approved] =>
      step s = A2A_HANDSHAKE /\
      run_prefix (if approved then 3 else 2) (logs s) /\ result s = None
  | _ => False
  end.

(** The moves of the step that one handler makes, from the upload to the
    completion or to the failure of the analysis. *)
Definition step_move (a b : WorkflowStep) : bool :=
  match a, b with
  | IDLE, UPLOADING
  | UPLOADING, GEMINI_ANALYSIS
  | GEMINI_ANALYSIS, A2A_HANDSHAKE
  | GEMINI_ANALYSIS, IDLE
  | A2A_HANDSHAKE, COMPLETED => true
  | _, _ => false
  end.

(** What holds of the state after every action of a session at the page:
    a result is there exactly at [COMPLETED]; it then belongs to the report
    in the state, carries the verdict of that report, and stands beside a
    preview and a transcript of two or three entries; outside [COMPLETED]
    there is no report and no transcript. *)
Definition page_ok (s : AppState) : Prop :=
  (step s = IDLE \/ step s = UPLOADING \/ step s = COMPLETED) /\
  (step s = COMPLETED <-> result s <> None) /\
  (forall cr, result s = Some cr ->
     report s = Some (ClaimResult.report cr) /\
     previewUrl s <> None /\
     ClaimResult.paymentInitiated cr = isApproved (ClaimResult.report cr) /\
     (ClaimResult.status cr = APPROVED <->
      isApproved (ClaimResult.report cr) = true) /\
     List.length (logs s) =
       (if ClaimResult.paymentInitiated cr then 3 else 2)%nat) /\
  (step s <> COMPLETED -> report s = None /\ logs s = []).

(** A lower-case letter of the ASCII range. *)
Definition is_lower (c : ascii) : bool :=
  (97 <=? nat_of_ascii c)%nat && (nat_of_ascii c <=? 122)%nat.

Fixpoint has_lower (s : string) : bool :=
  match s with
  | EmptyString => false
  | String c s' => is_lower c || has_lower s'
  end.

Fixpoint has_comma (s : string) : bool :=
  match s with
  | EmptyString => false
  | String c s' => Ascii.eqb c ","%char || has_comma s'
  end.

(** The entry a run puts at position [j] of its transcript: the proposal,
    the evaluation, the settlement. *)
Definition entry_of_run (j : nat) (e : HandshakeLog.t) : Prop :=
  match j with
  | 0 => exists now r, e = stamp now (proposal r)
  | 1 => exists now approved, e = stamp now (evaluation approved)
  | 2 => exists now r, e = stamp now (settlement r)
  | _ => False
  end.

(** Every entry of [l] is the entry a run puts at its position. *)
Definition run_shape (l : list HandshakeLog.t) : Prop :=
  forall j e, nth_error l j = Some e -> entry_of_run j e.

(** Every reset of [evs], run from [sys], comes when no handler is
    suspended. *)
Fixpoint resets_at_rest (evs : list Event) (sys : System) : bool :=
  match evs with
  | [] => true
  | ev :: evs' =>
      (negb (is_reset ev) ||
       match pending sys with [] => true | _ => false end)
      && resets_at_rest evs' (turn ev sys)
  end.

(** One upload, approved, and a click on the reset button while its
    handshake waits for the first timer; the timers then fire. *)
Definition reset_during_handshake : list Event :=
  [EvUpload (Some sample_file);
   EvWake 0 (LoadEnd (Some sample_url));
   EvWake 0 (AnalysisSettled (inl (scenario_report Moderate 3200%float))
                             "10:15:01 AM");
   EvReset;
   EvWake 0 (TimerFired "10:15:02 AM" "");
   EvWake 0 (TimerFired "10:15:04 AM" "");
   EvWake 0 (TimerFired "10:15:05 AM" "0.4fzyo82mvyr")].

(** A first upload, approved, reset after its evaluation; a second upload
    whose analysis returns before the second timer of the first. *)
Definition second_upload_started : list Event :=
  [EvUpload (Some sample_file);
   EvWake 0 (LoadEnd (Some sample_url));
   EvWake 0 (AnalysisSettled (inl (scenario_report Moderate 3200%float))
                             "10:15:01 AM");
   EvWake 0 (TimerFired "10:15:02 AM" "");
   EvReset;
   EvUpload (Some sample_file);
   EvWake 1 (LoadEnd (Some sample_url))].

(** The handshake of the second upload, on a cost of 12000, with the
    remaining timers of the first in between. *)
Definition second_handshake : list Event :=
  [EvWake 1 (AnalysisSettled (inl (other_report 12000%float)) "10:15:03 AM");
   EvWake 0 (TimerFired "10:15:04 AM" "");
   EvWake 1 (TimerFired "10:15:04 AM" "");
   EvWake 0 (TimerFired "10:15:05 AM" "0.i");
   EvWake 0 (TimerFired "10:15:06 AM" "");
   EvWake 0 (TimerFired "10:15:07 AM" "0.4fzyo82mvyr")].

(* ================================================================== *)
(** * Comparison of binary64 values                                    *)
(* ================================================================== *)

Section Binary64Order.

Lemma compare_cont_Eq (p q : positive) :
  PosDef.Pos.compare_cont Eq p q = (p ?= q)%positive.
Proof. reflexivity. Qed.

(** Swapping the arguments of the comparison reverses its answer. *)
Lemma SFcompare_antisym (a b : spec_float) :
  SFcompare b a = option_map CompOpp (SFcompare a b).
Proof.
  destruct a as [sa|sa| |sa ma ea], b as [sb|sb| |sb mb eb];
    try destruct sa; try destruct sb; simpl; try reflexivity;
    rewrite (Z.compare_antisym ea eb), !compare_cont_Eq,
            (Pos.compare_antisym ma mb);
    destruct (ea ?= eb)%Z; simpl; try reflexivity;
    now rewrite CompOpp_involutive.
Qed.

(** Two values that compare equal compare alike with any third. *)
Lemma SFcompare_Eq_left (x y t : spec_float) :
  SFcompare x y = Some Eq -> SFcompare x t = SFcompare y t.
Proof.
  destruct x as [sx|sx| |sx mx ex], y as [sy|sy| |sy my ey];
    try destruct sx; try destruct sy; simpl; try discriminate;
    try reflexivity; rewrite compare_cont_Eq;
    destruct (Z.compare_spec ex ey) as [He|He|He]; try discriminate;
    destruct (Pos.compare_spec mx my) as [Hm|Hm|Hm]; try discriminate;
    intros _; subst; reflexivity.
Qed.

(** [a <= b] excludes [b < a]. *)
Lemma ltb_false_of_leb (a b : float) :
  (a <=? b)%float = true -> (b <? a)%float = false.
Proof.
  rewrite leb_spec, ltb_spec. unfold SFleb, SFltb.
  rewrite (SFcompare_antisym (Prim2SF a) (Prim2SF b)).
  destruct (SFcompare (Prim2SF a) (Prim2SF b)) as [[]|]; simpl; congruence.
Qed.

(** [a == b] excludes [a < b]. *)
Lemma ltb_false_of_eqb (a b : float) :
  (a =? b)%float = true -> (a <? b)%float = false.
Proof.
  rewrite eqb_spec, ltb_spec. unfold SFeqb, SFltb.
  destruct (SFcompare (Prim2SF a) (Prim2SF b)) as [[]|]; simpl; congruence.
Qed.

(** [a == b] makes [a < t] and [b < t] the same test. *)
Lemma ltb_eqb_compat (a b t : float) :
  (a =? b)%float = true -> (a <? t)%float = (b <? t)%float.
Proof.
  rewrite eqb_spec, !ltb_spec. unfold SFeqb, SFltb. intros H.
  rewrite (SFcompare_Eq_left (Prim2SF a) (Prim2SF b)); [reflexivity|].
  destruct (SFcompare (Prim2SF a) (Prim2SF b)) as [[]|]; congruence.
Qed.

(** The threshold is the binary64 value of the integer 5000. *)
Lemma APPROVAL_THRESHOLD_value :
  Prim2SF APPROVAL_THRESHOLD = S754_finite false 5497558138880000 (-40)
  /\ (5497558138880000 = 5000 * 2 ^ 40)%Z.
Proof. split; reflexivity. Qed.

End Binary64Order.

(* ================================================================== *)
(** * What one run of the handshake leaves behind                      *)
(* ================================================================== *)

Section HandshakeRun.

Variable env : HandshakeEnv.
Variable r : DamageReport.t.
Variable s : AppState.

(** The entries of one run, in the order they are appended. *)
Lemma performA2AHandshake_logs :
  logs (performA2AHandshake env r s) =
  logs s ++
  stamp (now_propose env) (proposal r) ::
  stamp (now_evaluate env) (evaluation (isApproved r)) ::
  (if isApproved r then [stamp (now_settle env) (settlement r)] else []).
Proof.
  unfold performA2AHandshake, handshake_finalize, handshake_settle,
    handshake_evaluate, handshake_propose, addLog.
  destruct (isApproved r); simpl; rewrite <- !app_assoc; reflexivity.
Qed.

Lemma performA2AHandshake_result :
  result (performA2AHandshake env r s) =
  Some {| ClaimResult.status :=
            if isApproved r then APPROVED else MANUAL_REVIEW
        ; ClaimResult.paymentInitiated := isApproved r
        ; ClaimResult.referenceId := makeReferenceId (random36 env)
        ; ClaimResult.report := r |}.
Proof. reflexivity. Qed.

Lemma performA2AHandshake_step :
  step (performA2AHandshake env r s) = COMPLETED.
Proof. reflexivity. Qed.

Lemma performA2AHandshake_report :
  report (performA2AHandshake env r s) = report s.
Proof.
  unfold performA2AHandshake, handshake_settle.
  destruct (isApproved r); reflexivity.
Qed.

(** A run on a report that is not below the threshold (a cost at or above
    it, or a cost that is not a number) appends the proposal and the
    evaluation and nothing else. *)
Lemma performA2AHandshake_logs_not_approved :
  isApproved r = false ->
  logs (performA2AHandshake env r s) =
  logs s ++ [stamp (now_propose env) (proposal r);
             stamp (now_evaluate env) (evaluation false)].
Proof. intros H. rewrite performA2AHandshake_logs, H. reflexivity. Qed.

End HandshakeRun.

(** The scenarios of the specification, run. *)
Example scenario_3200 :
  option_map ClaimResult.status (result (scenario_run Moderate 3200%float)) =
    Some APPROVED /\
  option_map ClaimResult.paymentInitiated
    (result (scenario_run Moderate 3200%float)) = Some true /\
  List.length (logs (scenario_run Moderate 3200%float)) = 3%nat /\
  option_map ClaimResult.referenceId
    (result (scenario_run Moderate 3200%float)) = Some "CLM-4FZYO82MV".
Proof. vm_compute. repeat split. Qed.

Example scenario_5000 :
  option_map ClaimResult.status (result (scenario_run Severe 5000%float)) =
    Some MANUAL_REVIEW /\
  List.length (logs (scenario_run Severe 5000%float)) = 2%nat /\
  map HandshakeLog.protocol (logs (scenario_run Severe 5000%float)) =
    [A2A; A2A].
Proof. vm_compute. repeat split. Qed.

Example scenario_12000 :
  option_map ClaimResult.status
    (result (scenario_run Catastrophic 12000%float)) = Some MANUAL_REVIEW /\
  List.length (logs (scenario_run Catastrophic 12000%float)) = 2%nat.
Proof. vm_compute. repeat split. Qed.

(** A cost that is not a number is not below the threshold. *)
Example scenario_nan :
  option_map ClaimResult.status (result (scenario_run Low nan)) =
    Some MANUAL_REVIEW.
Proof. vm_compute. reflexivity. Qed.

(* ================================================================== *)
(** * The order of a transcript, decided                               *)
(* ================================================================== *)

(** Reads an entry at a given position of a transcript known entry by
    entry. *)
Ltac at_position i :=
  repeat (destruct i as [|i]; simpl in *; try discriminate).

Section TranscriptOrder.

Lemma LogStatus_eqb_eq (a b : LogStatus) : LogStatus_eqb a b = true <-> a = b.
Proof. destruct a, b; simpl; split; congruence. Qed.

Lemma Agent_eqb_eq (a b : Agent) : Agent_eqb a b = true <-> a = b.
Proof. destruct a, b; simpl; split; congruence. Qed.

(** An earlier [SENT] entry from the other agent, among [seen]. *)
Lemma answered_in_seen (e : HandshakeLog.t) (seen : list HandshakeLog.t) :
  existsb (fun p => LogStatus_eqb (HandshakeLog.status p) SENT &&
                    Agent_eqb (HandshakeLog.from p)
                              (opposite (HandshakeLog.from e))) seen = true
  <->
  exists i p, (i < List.length seen)%nat /\ nth_error seen i = Some p /\
              HandshakeLog.status p = SENT /\
              HandshakeLog.from p = opposite (HandshakeLog.from e).
Proof.
  rewrite existsb_exists. split.
  - intros (p & Hin & Hp). apply andb_true_iff in Hp as [Hs Hf].
    apply LogStatus_eqb_eq in Hs. apply Agent_eqb_eq in Hf.
    destruct (In_nth_error _ _ Hin) as [i Hi].
    exists i, p. repeat split; auto.
    apply nth_error_Some. congruence.
  - intros (i & p & _ & Hi & Hs & Hf). exists p.
    split; [eapply nth_error_In; exact Hi|].
    apply andb_true_iff. split;
      [apply LogStatus_eqb_eq | apply Agent_eqb_eq]; assumption.
Qed.

(** [processed_after_sentb seen rest] decides the property for the entries
    of [rest], standing after [seen]. *)
Lemma processed_after_sentb_spec (rest : list HandshakeLog.t) :
  forall seen,
    processed_after_sentb seen rest = true <->
    (forall j e,
       nth_error rest j = Some e ->
       HandshakeLog.status e = PROCESSED ->
       exists i p,
         (i < List.length seen + j)%nat /\
         nth_error (seen ++ rest) i = Some p /\
         HandshakeLog.status p = SENT /\
         HandshakeLog.from p = opposite (HandshakeLog.from e)).
Proof.
  induction rest as [|e rest IH]; intros seen; simpl.
  - split; [|reflexivity]. intros _ [|j] x H; discriminate.
  - rewrite andb_true_iff, (IH (seen ++ [e])). split.
    + intros [Hhead Htail] [|j] x Hx Hproc; simpl in Hx.
      * injection Hx as <-. rewrite Hproc in Hhead. simpl in Hhead.
        apply answered_in_seen in Hhead as (i & p & Hi & Hp & Hrest).
        exists i, p. split; [lia|]. split; [|exact Hrest].
        rewrite nth_error_app1; assumption.
      * destruct (Htail j x Hx Hproc) as (i & p & Hi & Hp & Hrest).
        exists i, p. rewrite length_app in Hi. simpl in Hi.
        split; [lia|]. split; [|exact Hrest].
        rewrite <- app_assoc in Hp. exact Hp.
    + intros H. split.
      * destruct (LogStatus_eqb (HandshakeLog.status e) PROCESSED) eqn:Hproc;
          [|reflexivity].
        apply LogStatus_eqb_eq in Hproc.
        destruct (H 0%nat e eq_refl Hproc) as (i & p & Hi & Hp & Hrest).
        apply answered_in_seen. exists i, p.
        split; [lia|]. split; [|exact Hrest].
        rewrite nth_error_app1 in Hp; [exact Hp | lia].
      * intros j x Hx Hproc.
        destruct (H (S j) x Hx Hproc) as (i & p & Hi & Hp & Hrest).
        exists i, p. rewrite length_app. simpl.
        split; [lia|]. split; [|exact Hrest].
        rewrite <- app_assoc. exact Hp.
Qed.

(** The decision procedure and the property agree on whole transcripts. *)
Lemma processed_after_sentb_iff (l : list HandshakeLog.t) :
  processed_after_sentb [] l = true <-> processed_after_sent l.
Proof. apply (processed_after_sentb_spec l []). Qed.

Lemma processed_after_sent_nil : processed_after_sent [].
Proof. intros [|j] e H; discriminate. Qed.

(** In the transcript of one run, started on an empty transcript, the
    evaluation is the only [PROCESSED] entry and the proposal, [SENT] by the
    other agent, stands before it. *)
Lemma run_processed_after_sent env r s :
  logs s = [] -> processed_after_sent (logs (performA2AHandshake env r s)).
Proof.
  intros Hempty. rewrite performA2AHandshake_logs, Hempty. simpl.
  intros j e Hj He.
  exists 0%nat, (stamp (now_propose env) (proposal r)).
  destruct (isApproved r); at_position j;
    injection Hj as <-; simpl in *; try discriminate;
    repeat split; lia.
Qed.

End TranscriptOrder.

(* ================================================================== *)
(** * Invariants of the event loop                                     *)
(* ================================================================== *)

Section EventLoop.

Lemma state_ok_initial : state_ok initialState.
Proof. split; [constructor | intros cr H; discriminate]. Qed.

Lemma state_ok_setStep v s : state_ok s -> state_ok (setStep v s).
Proof. intros H; exact H. Qed.

Lemma state_ok_setReport v s : state_ok s -> state_ok (setReport v s).
Proof. intros H; exact H. Qed.

Lemma state_ok_setPreviewUrl v s :
  state_ok s -> state_ok (setPreviewUrl v s).
Proof. intros H; exact H. Qed.

Lemma state_ok_reset s : state_ok (resetWorkflow s).
Proof. split; [constructor | intros cr H; discriminate]. Qed.

(** [addLog] keeps the invariant when the entry is [SENT] or
    [PROCESSED]. *)
Lemma state_ok_addLog now log s :
  LogInit.status log = SENT \/ LogInit.status log = PROCESSED ->
  state_ok s -> state_ok (addLog now log s).
Proof.
  intros Hlog [Hlogs Hres]. split; [|exact Hres].
  simpl. apply Forall_app. split; [exact Hlogs|].
  constructor; [exact Hlog | constructor].
Qed.

Lemma state_ok_finalize rnd r s :
  state_ok s -> state_ok (handshake_finalize rnd (isApproved r) r s).
Proof.
  intros [Hlogs _]. split; [exact Hlogs|].
  intros cr Hcr. simpl in Hcr. injection Hcr as <-.
  unfold payment_iff_approved. simpl.
  destruct (isApproved r); repeat split; congruence.
Qed.

(** One resumption keeps the state and the task in order. *)
Lemma resume_ok t w s s' t' :
  resume t w s = Some (s', t') ->
  task_ok t -> state_ok s ->
  state_ok s' /\ (forall u, t' = Some u -> task_ok u).
Proof.
  intros Hres Ht Hs.
  destruct t as [f|f|r|r a|r a], w as [[url|]|[dr|err] now|now rnd];
    simpl in Hres; try discriminate; injection Hres as <- <-.
  - split; [exact Hs | intros u Hu; injection Hu as <-; exact I].
  - split; [exact Hs | intros u Hu; discriminate].
  - split; [|intros u Hu; injection Hu as <-; exact I].
    apply state_ok_addLog; [left; reflexivity | exact Hs].
  - split; [exact Hs | intros u Hu; discriminate].
  - split; [|intros u Hu; injection Hu as <-; reflexivity].
    apply state_ok_addLog; [right; reflexivity | exact Hs].
  - split; [|intros u Hu; injection Hu as <-; exact Ht].
    unfold handshake_settle. destruct a; [|exact Hs].
    apply state_ok_addLog; [left; reflexivity | exact Hs].
  - split; [|intros u Hu; discriminate].
    simpl in Ht. subst a. apply state_ok_finalize. exact Hs.
Qed.

Lemma Forall_firstn {A} (P : A -> Prop) n (l : list A) :
  Forall P l -> Forall P (firstn n l).
Proof.
  intros H. revert n.
  induction H as [|x l Hx Hl IH]; intros [|n]; simpl; constructor; auto.
Qed.

Lemma Forall_skipn {A} (P : A -> Prop) n (l : list A) :
  Forall P l -> Forall P (skipn n l).
Proof.
  intros H. revert n.
  induction H as [|x l Hx Hl IH]; intros [|n]; simpl;
    try constructor; auto.
Qed.

Lemma Forall_settle_task (P : Task -> Prop) i t' ts :
  Forall P ts -> (forall u, t' = Some u -> P u) ->
  Forall P (settle_task i t' ts).
Proof.
  intros Hts Ht'. unfold settle_task.
  apply Forall_app. split; [apply Forall_firstn; exact Hts|].
  apply Forall_app. split; [|apply Forall_skipn; exact Hts].
  destruct t' as [u|]; [|constructor].
  constructor; [apply Ht'; reflexivity | constructor].
Qed.

(** Every turn keeps the system in order. *)
Lemma turn_ok ev sys : system_ok sys -> system_ok (turn ev sys).
Proof.
  intros [Hs Hts]. destruct ev as [file| |i w]; simpl.
  - destruct (WorkflowStep_eqb (step (app sys)) IDLE); [|split; assumption].
    destruct file as [f|]; simpl; split; simpl; try exact Hs;
      apply Forall_app; split; try exact Hts; repeat constructor.
  - split; [apply state_ok_reset | exact Hts].
  - destruct (nth_error (pending sys) i) as [t|] eqn:Hi; [|split; assumption].
    destruct (resume t w (app sys)) as [[s' t']|] eqn:Hres;
      [|split; assumption].
    assert (Ht : task_ok t).
    { rewrite Forall_forall in Hts. apply Hts.
      eapply nth_error_In; exact Hi. }
    destruct (resume_ok _ _ _ _ _ Hres Ht Hs) as [Hs' Ht'].
    split; [exact Hs' | apply Forall_settle_task; assumption].
Qed.

Lemma turns_ok evs : forall sys, system_ok sys -> system_ok (turns evs sys).
Proof.
  induction evs as [|ev evs IH]; intros sys H; [exact H|].
  simpl. apply IH. apply turn_ok. exact H.
Qed.

(** The invariant holds in every reachable state. *)
Lemma reachable_ok sys : reachable sys -> system_ok sys.
Proof.
  intros [evs ->]. apply turns_ok.
  split; [apply state_ok_initial | constructor].
Qed.

(** The sequential [handleFileUpload] is what the event loop does when
    it runs one upload, started in [IDLE], with nothing in between. *)
Lemma uninterrupted_is_handleFileUpload env f s :
  step s = IDLE ->
  turns (uninterrupted env f) {| app := s; pending := [] |} =
  {| app := fst (handleFileUpload env (Some f) s); pending := [] |}.
Proof.
  intros Hidle. unfold uninterrupted, handleFileUpload.
  destruct (reader_result env) as [url|].
  - destruct (analyzeDamage env (nth_error (split_comma url) 1) (type f))
      as [dr|err]; unfold turns; simpl; rewrite Hidle; reflexivity.
  - unfold turns; simpl; rewrite Hidle; reflexivity.
Qed.

(** A reset does not cancel a suspended handshake: the evaluation that was
    waiting for its timer is appended to the transcript the reset has just
    emptied, where no proposal stands before it. *)
Lemma reset_does_not_cancel r now rnd s ts :
  let sys := turn (EvWake 0 (TimerFired now rnd))
               (turn EvReset {| app := s; pending := AwaitDelay1 r :: ts |}) in
  step (app sys) = IDLE /\
  logs (app sys) = [stamp now (evaluation (isApproved r))] /\
  ~ processed_after_sent (logs (app sys)).
Proof.
  simpl. repeat split. intros H.
  destruct (H 0%nat _ eq_refl eq_refl) as (i & _ & Hi & _). lia.
Qed.

(** Such a state is reached by an upload, a successful analysis, a reset
    and the first timer. *)
Example stale_evaluation_reachable :
  exists sys,
    reachable sys /\ step (app sys) = IDLE /\
    map HandshakeLog.status (logs (app sys)) = [PROCESSED].
Proof.
  exists (turns [EvUpload (Some sample_file);
                 EvWake 0 (LoadEnd (Some sample_url));
                 EvWake 0 (AnalysisSettled
                             (inl (scenario_report Moderate 3200%float))
                             "10:15:01 AM");
                 EvReset;
                 EvWake 0 (TimerFired "10:15:02 AM" "0.i")]
                initialSystem).
  split; [eexists; reflexivity | split; reflexivity].
Qed.

End EventLoop.

(* ================================================================== *)
(** * Sessions at the page                                             *)
(* ================================================================== *)

Section Session.

Lemma session_ok_initial : session_ok initialState.
Proof.
  split; [intros _; repeat split | apply processed_after_sent_nil].
Qed.

(** Every user action, its handler run to the end, keeps [IDLE] states
    clear and the transcript in order: an upload starts in [IDLE], on an
    empty transcript, and ends outside [IDLE] unless the analysis fails. *)
Lemma session_ok_userAction env a s :
  session_ok s -> session_ok (fst (userAction env a s)).
Proof.
  intros [Hclear Horder]. destruct a as [file|]; simpl.
  - unfold fileInput_onChange.
    destruct (WorkflowStep_eqb (step s) IDLE) eqn:Hidle;
      [|split; assumption].
    assert (Hstep : step s = IDLE)
      by (destruct (step s); simpl in Hidle; congruence).
    destruct (Hclear Hstep) as (Hrep & Hlogs & Hres).
    unfold handleFileUpload. destruct file as [f|]; [|split; assumption].
    destruct (reader_result env) as [url|];
      [|split; [intros H; discriminate | exact Horder]].
    destruct (analyzeDamage env (nth_error (split_comma url) 1) (type f))
      as [dr|err].
    + split; [intros H; discriminate|].
      apply run_processed_after_sent. exact Hlogs.
    + split; [|exact Horder].
      intros _. simpl. repeat split; assumption.
  - split; [intros _; repeat split | apply processed_after_sent_nil].
Qed.

Lemma session_ok_session acts :
  forall s, session_ok s -> session_ok (session acts s).
Proof.
  induction acts as [|[env a] acts IH]; intros s Hs; [exact Hs|].
  simpl. apply IH. apply session_ok_userAction. exact Hs.
Qed.

End Session.

(* ================================================================== *)
(** * The properties of the specification                              *)
(* ================================================================== *)

(** C1: the approval threshold is 5000; for every DamageReport given to
    the handshake, the run constructs a ClaimResult whose status is
    APPROVED if and only if the estimated cost is strictly less than the
    threshold, and a cost equal to the threshold yields MANUAL_REVIEW; every
    result the state holds, in any state the event loop can reach, has the
    status that the cost of its own report asks for. *)
Theorem status_approved_iff_below_threshold :
  APPROVAL_THRESHOLD = 5000%float /\
  (forall (env : HandshakeEnv) (r : DamageReport.t) (s : AppState),
     exists cr,
       result (performA2AHandshake env r s) = Some cr /\
       ClaimResult.report cr = r /\
       (ClaimResult.status cr = APPROVED <->
        (DamageReport.estimatedCost r <? APPROVAL_THRESHOLD)%float = true) /\
       (ClaimResult.status cr = MANUAL_REVIEW <->
        (DamageReport.estimatedCost r <? APPROVAL_THRESHOLD)%float = false) /\
       ((DamageReport.estimatedCost r =? APPROVAL_THRESHOLD)%float = true ->
        ClaimResult.status cr = MANUAL_REVIEW)) /\
  (forall sys cr,
     reachable sys -> result (app sys) = Some cr ->
     (ClaimResult.status cr = APPROVED <->
      (DamageReport.estimatedCost (ClaimResult.report cr)
         <? APPROVAL_THRESHOLD)%float = true)).
Proof.
  split; [reflexivity|]. split.
  - intros env r s.
    eexists. split; [apply performA2AHandshake_result|]. simpl.
    unfold isApproved. split; [reflexivity|]. split; [|split].
    + destruct (DamageReport.estimatedCost r <? APPROVAL_THRESHOLD)%float;
        split; congruence.
    + destruct (DamageReport.estimatedCost r <? APPROVAL_THRESHOLD)%float;
        split; congruence.
    + intros Heq. now rewrite (ltb_false_of_eqb _ _ Heq).
  - intros sys cr Hreach Hcr.
    destruct (reachable_ok sys Hreach) as [[_ Hres] _].
    apply (Hres cr Hcr).
Qed.

(** The last part on the approved scenario, by the decision procedure. *)
Example scenario_3200_processed_after_sent :
  processed_after_sent (logs (scenario_run Moderate 3200%float)).
Proof. apply processed_after_sentb_iff. vm_compute. reflexivity. Qed.

(** C4: every ClaimResult the protocol constructs has paymentInitiated true
    if and only if its status is APPROVED: the one a run constructs, the
    one the finalization constructs from whatever verdict it is handed, and
    so every result the state holds in any state the event loop can
    reach. *)
Theorem paymentInitiated_iff_approved :
  (forall (env : HandshakeEnv) (r : DamageReport.t) (s : AppState),
     exists cr,
       result (performA2AHandshake env r s) = Some cr /\
       payment_iff_approved cr) /\
  (forall (rnd : string) (approved : bool) (r : DamageReport.t)
          (s : AppState),
     exists cr,
       result (handshake_finalize rnd approved r s) = Some cr /\
       payment_iff_approved cr) /\
  (forall sys cr,
     reachable sys -> result (app sys) = Some cr -> payment_iff_approved cr).
Proof.
  assert (Hfin : forall rnd approved r s, exists cr,
             result (handshake_finalize rnd approved r s) = Some cr /\
             payment_iff_approved cr).
  { intros rnd approved r s. eexists. split; [reflexivity|].
    unfold payment_iff_approved. simpl.
    destruct approved; split; congruence. }
  split; [|split; [exact Hfin|]].
  - intros env r s. apply Hfin.
  - intros sys cr Hreach Hcr.
    destruct (reachable_ok sys Hreach) as [[_ Hres] _].
    apply (Hres cr Hcr).
Qed.

(** The approved scenario, as a reachable state of the event loop. *)
Example scenario_3200_reachable :
  reachable
    {| app := fst (handleFileUpload
                     (upload_ok scenario_env
                                (scenario_report Moderate 3200%float))
                     (Some sample_file) initialState)
     ; pending := [] |}.
Proof.
  exists (uninterrupted
            (upload_ok scenario_env (scenario_report Moderate 3200%float))
            sample_file).
  symmetry. apply uninterrupted_is_handleFileUpload. reflexivity.
Qed.

(** C5: reset, from any session state, sets the step to IDLE and clears the
    report, the transcript and the result; the reset button does exactly
    this in every state, COMPLETED included, at the page and on the event
    loop. *)
Theorem reset_clears_session :
  forall (env : UploadEnv) (s : AppState) (ts : list Task),
    step (resetWorkflow s) = IDLE /\
    report (resetWorkflow s) = None /\
    logs (resetWorkflow s) = [] /\
    result (resetWorkflow s) = None /\
    fst (userAction env ClickReset s) = resetWorkflow s /\
    app (turn EvReset {| app := s; pending := ts |}) = resetWorkflow s.
Proof. intros env s ts. repeat split. Qed.

(** Reset from the completed state of the approved scenario. *)
Example reset_from_completed :
  step (scenario_run Moderate 3200%float) = COMPLETED /\
  resetWorkflow (scenario_run Moderate 3200%float) = initialState.
Proof. split; reflexivity. Qed.

(** C6: when the analysis gateway fails, the step returns to IDLE; the
    report, the transcript and the result are left as they were, so an
    absent report remains absent and an empty transcript remains empty; the
    failure is logged and shown to the user, after which the upload control
    is on the page again; the gateway has been called once, and on the
    event loop the failed upload leaves no task behind that could call it
    again. *)
Theorem analysis_failure_returns_to_idle :
  forall (env : UploadEnv) (f : File) (s : AppState)
         (url : string) (err : AnalysisError),
    reader_result env = Some url ->
    analyzeDamage env (nth_error (split_comma url) 1) (type f) = inr err ->
    let s' := fst (handleFileUpload env (Some f) s) in
    let effects := snd (handleFileUpload env (Some f) s) in
    step s' = IDLE /\
    report s' = report s /\ logs s' = logs s /\ result s' = result s /\
    (report s = None -> report s' = None) /\
    (logs s = [] -> logs s' = []) /\
    effects = [ReadAsDataURL f;
               AnalyzeDamage (nth_error (split_comma url) 1) (type f);
               ConsoleError "Analysis failed" err;
               Alert alert_text] /\
    gateway_calls effects = 1%nat /\
    (forall env', fileInput_onChange env' s' <> None) /\
    (forall now s0,
       resume (AwaitAnalysis f) (AnalysisSettled (inr err) now) s0 =
       Some (setStep IDLE s0, None)).
Proof.
  intros env f s url err Hread Hfail s' effects. subst s' effects.
  unfold handleFileUpload. rewrite Hread, Hfail. simpl.
  repeat split; auto. intros env'. unfold fileInput_onChange. simpl.
  discriminate.
Qed.

Lemma analysis_failure_returns_to_idle_witness :
  step (fst (handleFileUpload upload_failing (Some sample_file)
               initialState)) = IDLE /\
  report (fst (handleFileUpload upload_failing (Some sample_file)
                 initialState)) = None /\
  logs (fst (handleFileUpload upload_failing (Some sample_file)
               initialState)) = [] /\
  gateway_calls (snd (handleFileUpload upload_failing (Some sample_file)
                        initialState)) = 1%nat.
Proof.
  destruct (analysis_failure_returns_to_idle upload_failing sample_file
              initialState sample_url {| message := "damage not visible" |}
              eq_refl eq_refl)
    as (Hstep & _ & _ & _ & Hrep & Hlogs & _ & Hcalls & _ & _).
  split; [exact Hstep|].
  split; [exact (Hrep eq_refl)|].
  split; [exact (Hlogs eq_refl) | exact Hcalls].
Defined.

(** In a session at the page the failure always finds the report absent
    and the transcript empty, and leaves them so. *)
Lemma analysis_failure_in_session acts env f url err :
  step (session acts initialState) = IDLE ->
  reader_result env = Some url ->
  analyzeDamage env (nth_error (split_comma url) 1) (type f) = inr err ->
  let s' := session (acts ++ [(env, UploadEvidence (Some f))]) initialState in
  step s' = IDLE /\ report s' = None /\ logs s' = [] /\ result s' = None.
Proof.
  intros Hidle Hread Hfail s'.
  assert (Hclear : idle_clear s')
    by (apply session_ok_session, session_ok_initial).
  assert (Hstep : step s' = IDLE).
  { subst s'. unfold session. rewrite fold_left_app.
    cbn [fold_left fst snd]. fold (session acts initialState).
    unfold userAction, fileInput_onChange. rewrite Hidle.
    cbn [WorkflowStep_eqb]. unfold handleFileUpload.
    rewrite Hread, Hfail. reflexivity. }
  split; [exact Hstep | exact (Hclear Hstep)].
Qed.

(** C7, as the claim states it, fails: two completed runs of one session
    (an upload, a reset, another upload) at different times, on different
    reports, with different outcomes, whose random draws are both 0.5, end
    with the same referenceId. *)
Lemma referenceId_collision :
  let s1 := fst (userAction
                   (upload_ok (half_env "09:00:00 AM")
                              (scenario_report Moderate 3200%float))
                   (UploadEvidence (Some sample_file)) initialState) in
  let s1' := fst (userAction upload_failing ClickReset s1) in
  let s2 := fst (userAction
                   (upload_ok (half_env "05:30:00 PM")
                              (other_report 12000%float))
                   (UploadEvidence (Some sample_file)) s1') in
  exists cr1 cr2,
    result s1 = Some cr1 /\ result s2 = Some cr2 /\
    ClaimResult.status cr1 = APPROVED /\
    ClaimResult.status cr2 = MANUAL_REVIEW /\
    ClaimResult.referenceId cr1 = ClaimResult.referenceId cr2 /\
    ClaimResult.referenceId cr1 = "CLM-I".
Proof. vm_compute. do 2 eexists. repeat split. Qed.

(** Two different draws collide as well when they agree on the nine
    characters kept. *)
Example referenceId_collision_distinct_draws :
  random36 scenario_env <> random36 other_env /\
  makeReferenceId (random36 scenario_env) =
  makeReferenceId (random36 other_env).
Proof. split; [discriminate | reflexivity]. Qed.

Lemma prefix_CLM_injective (a b : string) :
  ("CLM-" ++ a = "CLM-" ++ b)%string <-> a = b.
Proof.
  split; [|intros ->; reflexivity].
  simpl. intros H. injection H as H. exact H.
Qed.

(** C7, amended: the referenceId of the ClaimResult a run constructs is
    [CLM-] followed by the upper-cased characters 2 to 10 of the base-36
    rendering of the run's random draw, so two completed runs have
    different referenceIds exactly when their draws differ in those nine
    characters. *)
Theorem referenceId_distinct_iff_fragments_distinct :
  forall (env1 env2 : HandshakeEnv) (r1 r2 : DamageReport.t)
         (s1 s2 : AppState),
    exists cr1 cr2,
      result (performA2AHandshake env1 r1 s1) = Some cr1 /\
      result (performA2AHandshake env2 r2 s2) = Some cr2 /\
      ClaimResult.referenceId cr1 =
        ("CLM-" ++ draw_fragment (random36 env1))%string /\
      ClaimResult.referenceId cr2 =
        ("CLM-" ++ draw_fragment (random36 env2))%string /\
      (ClaimResult.referenceId cr1 <> ClaimResult.referenceId cr2 <->
       draw_fragment (random36 env1) <> draw_fragment (random36 env2)).
Proof.
  intros env1 env2 r1 r2 s1 s2. do 2 eexists.
  rewrite !performA2AHandshake_result.
  split; [reflexivity|]. split; [reflexivity|]. cbn [ClaimResult.referenceId].
  unfold makeReferenceId. fold (draw_fragment (random36 env1)).
  fold (draw_fragment (random36 env2)).
  split; [reflexivity|]. split; [reflexivity|].
  rewrite prefix_CLM_injective. reflexivity.
Qed.

(** The handler itself does not look at the step: run in any state, it
    moves the step to UPLOADING.  What keeps it from running outside IDLE
    is the page, which has no file input then. *)
Lemma handleFileUpload_sets_uploading env f s :
  reader_result env = None ->
  step (fst (handleFileUpload env (Some f) s)) = UPLOADING.
Proof. intros H. unfold handleFileUpload. rewrite H. reflexivity. Qed.

(** C8: an attempt to upload evidence while the step is not IDLE is a
    no-op: no handler runs, the state (step, report, transcript, result) is
    what it was and nothing is done to the outside; on the event loop the
    event starts no task either. *)
Theorem upload_ignored_unless_idle :
  forall (env : UploadEnv) (file : option File) (s : AppState)
         (ts : list Task),
    step s <> IDLE ->
    userAction env (UploadEvidence file) s = (s, []) /\
    turn (EvUpload file) {| app := s; pending := ts |} =
      {| app := s; pending := ts |}.
Proof.
  intros env file s ts Hstep.
  unfold userAction, fileInput_onChange, turn. simpl.
  destruct (step s); try contradiction; split; reflexivity.
Qed.

Lemma upload_ignored_unless_idle_witness :
  userAction (upload_ok other_env (other_report 100%float))
    (UploadEvidence (Some sample_file)) (scenario_run Moderate 3200%float) =
    (scenario_run Moderate 3200%float, []) /\
  turn (EvUpload (Some sample_file))
    {| app := scenario_run Moderate 3200%float; pending := [] |} =
    {| app := scenario_run Moderate 3200%float; pending := [] |}.
Proof.
  apply (upload_ignored_unless_idle
           (upload_ok other_env (other_report 100%float))
           (Some sample_file) (scenario_run Moderate 3200%float) []).
  discriminate.
Defined.

(** C9: no transcript entry ever has status RECEIVED: the entries a run
    appends are SENT or PROCESSED, and so is every entry of the transcript
    in every state the event loop can reach, whatever the order of uploads,
    resets and resumptions. *)
Theorem no_received_entry :
  (forall (env : HandshakeEnv) (r : DamageReport.t) (s : AppState),
     exists added,
       logs (performA2AHandshake env r s) = logs s ++ added /\
       Forall sent_or_processed added) /\
  (forall sys, reachable sys ->
     forall e, In e (logs (app sys)) ->
       sent_or_processed e /\ HandshakeLog.status e <> RECEIVED).
Proof.
  split.
  - intros env r s. rewrite performA2AHandshake_logs.
    eexists. split; [reflexivity|].
    destruct (isApproved r); repeat constructor; simpl; auto;
      right; reflexivity.
  - intros sys Hreach e Hin.
    destruct (reachable_ok sys Hreach) as [[Hlogs _] _].
    rewrite Forall_forall in Hlogs. specialize (Hlogs e Hin).
    split; [exact Hlogs|].
    destruct Hlogs as [H|H]; rewrite H; discriminate.
Qed.

(** C10: two reports with the same estimated cost (the same value, or two
    values that [==] holds of) get the same status, the same
    paymentInitiated flag and the same number of appended transcript
    entries, whatever their other fields, the clock and the random draw. *)
Theorem disposition_depends_only_on_cost :
  forall (env1 env2 : HandshakeEnv) (r1 r2 : DamageReport.t)
         (s1 s2 : AppState),
    DamageReport.estimatedCost r1 = DamageReport.estimatedCost r2 \/
    (DamageReport.estimatedCost r1 =? DamageReport.estimatedCost r2)%float
      = true ->
    exists cr1 cr2 n,
      result (performA2AHandshake env1 r1 s1) = Some cr1 /\
      result (performA2AHandshake env2 r2 s2) = Some cr2 /\
      ClaimResult.status cr1 = ClaimResult.status cr2 /\
      ClaimResult.paymentInitiated cr1 = ClaimResult.paymentInitiated cr2 /\
      List.length (logs (performA2AHandshake env1 r1 s1)) =
        (List.length (logs s1) + n)%nat /\
      List.length (logs (performA2AHandshake env2 r2 s2)) =
        (List.length (logs s2) + n)%nat.
Proof.
  intros env1 env2 r1 r2 s1 s2 Hcost.
  assert (Hsame : isApproved r1 = isApproved r2).
  { unfold isApproved. destruct Hcost as [-> | Heq]; [reflexivity|].
    now apply ltb_eqb_compat. }
  do 2 eexists.
  exists (if isApproved r2 then 3%nat else 2%nat).
  rewrite !performA2AHandshake_result, !performA2AHandshake_logs, Hsame.
  repeat split; rewrite length_app; destruct (isApproved r2); reflexivity.
Qed.

(** Two reports that differ in everything but the cost. *)
Lemma disposition_depends_only_on_cost_witness :
  exists cr1 cr2 n,
    result (performA2AHandshake scenario_env
              (scenario_report Low 3200%float) initialState) = Some cr1 /\
    result (performA2AHandshake other_env (other_report 3200%float)
              (resetWorkflow initialState)) = Some cr2 /\
    ClaimResult.status cr1 = ClaimResult.status cr2 /\
    ClaimResult.paymentInitiated cr1 = ClaimResult.paymentInitiated cr2 /\
    List.length (logs (performA2AHandshake scenario_env
                         (scenario_report Low 3200%float) initialState)) =
      (List.length (logs initialState) + n)%nat /\
    List.length (logs (performA2AHandshake other_env
                         (other_report 3200%float)
                         (resetWorkflow initialState))) =
      (List.length (logs (resetWorkflow initialState)) + n)%nat.
Proof.
  apply (disposition_depends_only_on_cost scenario_env other_env
           (scenario_report Low 3200%float) (other_report 3200%float)
           initialState (resetWorkflow initialState)).
  left. reflexivity.
Defined.

(* ================================================================== *)
(** * Further properties: the cost bar                                 *)
(* ================================================================== *)

(** [a < b] excludes [b < a]. *)
Lemma ltb_asym (a b : float) :
  (a <? b)%float = true -> (b <? a)%float = false.
Proof.
  rewrite !ltb_spec. unfold SFltb.
  rewrite (SFcompare_antisym (Prim2SF a) (Prim2SF b)).
  destruct (SFcompare (Prim2SF a) (Prim2SF b)) as [[]|]; simpl; congruence.
Qed.

(** [a == b] excludes [b < a]. *)
Lemma ltb_false_of_eqb_sym (a b : float) :
  (a =? b)%float = true -> (b <? a)%float = false.
Proof.
  rewrite eqb_spec, ltb_spec. unfold SFeqb, SFltb.
  rewrite (SFcompare_antisym (Prim2SF a) (Prim2SF b)).
  destruct (SFcompare (Prim2SF a) (Prim2SF b)) as [[]|]; simpl; congruence.
Qed.

(** X1: the colour of the cost bar and the verdict of the handshake come
    from two different comparisons with the threshold ([>] on the page,
    [<] in the handshake).  An orange bar always goes with a claim sent to
    manual review and an approved claim always has an emerald bar; a claim
    whose cost equals the threshold is sent to manual review under an
    emerald bar. *)
Theorem bar_colour_and_verdict :
  forall r : DamageReport.t,
    (barOrange r = true -> isApproved r = false) /\
    (isApproved r = true -> barOrange r = false) /\
    ((DamageReport.estimatedCost r =? APPROVAL_THRESHOLD)%float = true ->
     barOrange r = false /\ isApproved r = false).
Proof.
  intros r. unfold barOrange, isApproved.
  split; [apply ltb_asym|]. split; [apply ltb_asym|].
  intros Heq. split;
    [apply ltb_false_of_eqb_sym | apply ltb_false_of_eqb]; exact Heq.
Qed.

(** The boundary of the specification: a cost of exactly 5000. *)
Lemma bar_colour_and_verdict_witness :
  barOrange (scenario_report Severe 5000%float) = false /\
  isApproved (scenario_report Severe 5000%float) = false.
Proof.
  apply (proj2 (proj2 (bar_colour_and_verdict
                         (scenario_report Severe 5000%float)))).
  reflexivity.
Defined.

(** X2: the width of the cost bar never exceeds 100 percent, whatever the
    cost. *)
Theorem bar_width_capped :
  forall r : DamageReport.t, (100 <? barWidth r)%float = false.
Proof.
  intros r. unfold barWidth, Math_min.
  set (x := (DamageReport.estimatedCost r / 10000 * 100)%float).
  destruct (is_nan x || is_nan 100%float); [reflexivity|].
  destruct (x <? 100)%float eqn:Hlt; [apply ltb_asym; exact Hlt|].
  destruct (100 <? x)%float eqn:Hgt; [reflexivity|].
  destruct (classify x); first [exact Hgt | reflexivity].
Qed.

(** The bar of the three scenarios: 32, 50 and the cap of 100 percent. *)
Example bar_width_scenarios :
  barWidth (scenario_report Moderate 3200%float) = 32%float /\
  barWidth (scenario_report Severe 5000%float) = 50%float /\
  barWidth (scenario_report Catastrophic 12000%float) = 100%float.
Proof. vm_compute. repeat split. Qed.

(* ================================================================== *)
(** * Further properties: the reference identifier                     *)
(* ================================================================== *)

Lemma length_toUpperCase (s : string) :
  String.length (toUpperCase s) = String.length s.
Proof. induction s as [|c s IH]; simpl; congruence. Qed.

Lemma length_substring (s : string) :
  forall n m,
    String.length (substring n m s) = Nat.min m (String.length s - n).
Proof.
  induction s as [|c s IH]; intros n m.
  - destruct n, m; simpl; try reflexivity; now rewrite Nat.min_0_r.
  - destruct n as [|n].
    + destruct m as [|m]; simpl; [reflexivity|].
      rewrite IH, Nat.sub_0_r. reflexivity.
    + simpl. apply IH.
Qed.

Lemma is_lower_upper_ascii (c : ascii) : is_lower (upper_ascii c) = false.
Proof. destruct c as [[] [] [] [] [] [] [] []]; reflexivity. Qed.

Lemma has_lower_toUpperCase (s : string) : has_lower (toUpperCase s) = false.
Proof.
  induction s as [|c s IH]; simpl; [reflexivity|].
  rewrite is_lower_upper_ascii, IH. reflexivity.
Qed.

(** X3: the referenceId of the ClaimResult a run constructs is [CLM-]
    followed by as many characters as the rendering of the draw has after
    its first two, nine at most: between 4 and 13 characters in all, and
    the bare [CLM-] when the rendering has no more than two characters (the
    draw 0, rendered [0]). *)
Theorem referenceId_length :
  forall (env : HandshakeEnv) (r : DamageReport.t) (s : AppState),
    exists cr suffix,
      result (performA2AHandshake env r s) = Some cr /\
      ClaimResult.referenceId cr = ("CLM-" ++ suffix)%string /\
      String.length suffix =
        Nat.min 9 (String.length (random36 env) - 2) /\
      (4 <= String.length (ClaimResult.referenceId cr) <= 13)%nat /\
      ((String.length (random36 env) <= 2)%nat ->
       ClaimResult.referenceId cr = "CLM-").
Proof.
  intros env r s.
  exists {| ClaimResult.status :=
              if isApproved r then APPROVED else MANUAL_REVIEW
          ; ClaimResult.paymentInitiated := isApproved r
          ; ClaimResult.referenceId := makeReferenceId (random36 env)
          ; ClaimResult.report := r |},
         (toUpperCase (substr 2 9 (random36 env))).
  split; [apply performA2AHandshake_result|].
  cbn [ClaimResult.referenceId]. unfold makeReferenceId, substr.
  assert (Hlen : String.length
                   (toUpperCase (substring 2 9 (random36 env))) =
                 Nat.min 9 (String.length (random36 env) - 2))
    by (rewrite length_toUpperCase; apply length_substring).
  split; [reflexivity|]. split; [exact Hlen|].
  split.
  { change (String.length
              ("CLM-" ++ toUpperCase (substring 2 9 (random36 env))))
      with (4 + String.length
                  (toUpperCase (substring 2 9 (random36 env))))%nat.
    rewrite Hlen.
    pose proof (Nat.le_min_l 9 (String.length (random36 env) - 2)). lia. }
  intros Hshort.
  pose proof (Nat.le_min_r 9 (String.length (random36 env) - 2)) as Hmin.
  rewrite <- Hlen in Hmin.
  destruct (toUpperCase (substring 2 9 (random36 env))) as [|c rest];
    [reflexivity|].
  cbn [String.length] in Hmin. lia.
Qed.

(** The draw 0, whose rendering is the single character [0]. *)
Lemma referenceId_length_witness :
  exists cr,
    result (performA2AHandshake
              {| now_propose := "a"; now_evaluate := "b"; now_settle := "c";
                 random36 := "0" |}
              (scenario_report Low 3200%float) initialState) = Some cr /\
    ClaimResult.referenceId cr = "CLM-".
Proof.
  destruct (referenceId_length
              {| now_propose := "a"; now_evaluate := "b"; now_settle := "c";
                 random36 := "0" |}
              (scenario_report Low 3200%float) initialState)
    as (cr & suffix & Hcr & _ & _ & _ & Hbare).
  exists cr. split; [exact Hcr | apply Hbare; simpl; lia].
Defined.

(** X4: the referenceId of the ClaimResult a run constructs has no
    lower-case letter, whatever the draw. *)
Theorem referenceId_no_lower_case :
  forall (env : HandshakeEnv) (r : DamageReport.t) (s : AppState),
    exists cr,
      result (performA2AHandshake env r s) = Some cr /\
      has_lower (ClaimResult.referenceId cr) = false.
Proof.
  intros env r s. eexists. split; [apply performA2AHandshake_result|].
  cbn [ClaimResult.referenceId]. unfold makeReferenceId. simpl.
  apply has_lower_toUpperCase.
Qed.

(* ================================================================== *)
(** * Further properties: the evidence handed to the gateway           *)
(* ================================================================== *)

Lemma append_assoc_char (acc : string) (c : ascii) (s : string) :
  ((acc ++ String c EmptyString) ++ s = acc ++ String c s)%string.
Proof. induction acc as [|a acc IH]; simpl; congruence. Qed.

Lemma append_empty_r (acc : string) : (acc ++ "")%string = acc.
Proof. induction acc as [|a acc IH]; simpl; congruence. Qed.

(** A string without a comma is one piece. *)
Lemma split_comma_aux_no_comma (s : string) :
  forall acc, has_comma s = false ->
    split_comma_aux acc s = [(acc ++ s)%string].
Proof.
  induction s as [|c s IH]; intros acc H; simpl in *.
  - now rewrite append_empty_r.
  - apply orb_false_iff in H as [Hc Hs]. rewrite Hc.
    rewrite (IH _ Hs), append_assoc_char. reflexivity.
Qed.

(** The first comma ends the first piece. *)
Lemma split_comma_aux_first (a : string) :
  forall acc b, has_comma a = false ->
    split_comma_aux acc (a ++ String ","%char b) =
    (acc ++ a)%string :: split_comma_aux EmptyString b.
Proof.
  induction a as [|c a IH]; intros acc b H; simpl in *.
  - now rewrite append_empty_r.
  - apply orb_false_iff in H as [Hc Ha]. rewrite Hc.
    rewrite (IH _ _ Ha), append_assoc_char. reflexivity.
Qed.

(** X5: when the file read yields a data URL, a header without a comma, a
    comma and a payload without a comma, the analysis gateway is called
    once, with exactly the payload and the media type of the file; when
    what the read yields has no comma at all, the gateway is still called,
    with no evidence ([undefined]). *)
Theorem gateway_receives_payload :
  forall (env : UploadEnv) (f : File) (s : AppState),
    (forall header payload,
       reader_result env = Some (header ++ String ","%char payload)%string ->
       has_comma header = false -> has_comma payload = false ->
       filter (fun e => match e with AnalyzeDamage _ _ => true | _ => false end)
              (snd (handleFileUpload env (Some f) s)) =
       [AnalyzeDamage (Some payload) (type f)]) /\
    (forall url,
       reader_result env = Some url -> has_comma url = false ->
       filter (fun e => match e with AnalyzeDamage _ _ => true | _ => false end)
              (snd (handleFileUpload env (Some f) s)) =
       [AnalyzeDamage None (type f)]).
Proof.
  intros env f s. split.
  - intros header payload Hread Hh Hp.
    unfold handleFileUpload. rewrite Hread.
    unfold split_comma. rewrite (split_comma_aux_first header _ _ Hh).
    rewrite (split_comma_aux_no_comma payload _ Hp).
    cbn [nth_error append].
    destruct (analyzeDamage env (Some payload) (type f)); reflexivity.
  - intros url Hread Hu.
    unfold handleFileUpload. rewrite Hread.
    unfold split_comma. rewrite (split_comma_aux_no_comma url _ Hu).
    cbn [nth_error].
    destruct (analyzeDamage env None (type f)); reflexivity.
Qed.

(** The sample upload: the payload of its data URL reaches the gateway. *)
Lemma gateway_receives_payload_witness :
  filter (fun e => match e with AnalyzeDamage _ _ => true | _ => false end)
         (snd (handleFileUpload upload_failing (Some sample_file)
                 initialState)) =
  [AnalyzeDamage (Some "iVBORw0KGgo=") "image/png"].
Proof.
  apply (proj1 (gateway_receives_payload upload_failing sample_file
                  initialState)
           "data:image/png;base64" "iVBORw0KGgo=");
    reflexivity.
Defined.

(* ================================================================== *)
(** * Further properties: the transcript and the result of one run     *)
(* ================================================================== *)

(** X6: a run appends the proposal, the evaluation and, for an approved
    claim only, the payment entry, and what they say agrees with the result
    the run constructs: the proposal carries the report the result holds;
    the evaluation says AUTO_APPROVE exactly when the result is APPROVED
    and REQUIRE_MANUAL_REVIEW exactly when it is MANUAL_REVIEW; the payment
    entry is there exactly when the result has paymentInitiated, and its
    amount is the estimated cost of that report, in USD. *)
Theorem transcript_agrees_with_result :
  forall (env : HandshakeEnv) (r : DamageReport.t) (s : AppState),
    exists cr p e rest,
      result (performA2AHandshake env r s) = Some cr /\
      ClaimResult.report cr = r /\
      logs (performA2AHandshake env r s) = logs s ++ p :: e :: rest /\
      HandshakeLog.payload p =
        ProposeClaim (ClaimResult.report cr) "Gemini-3-Pro-Handshake-V1" /\
      (exists verdict,
         HandshakeLog.payload e = EvaluatePolicy verdict "$5000" /\
         (verdict = "AUTO_APPROVE" <-> ClaimResult.status cr = APPROVED) /\
         (verdict = "REQUIRE_MANUAL_REVIEW" <->
          ClaimResult.status cr = MANUAL_REVIEW)) /\
      ((ClaimResult.paymentInitiated cr = true /\
        exists payment,
          rest = [payment] /\
          HandshakeLog.payload payment =
            InitiatePayment
              (DamageReport.estimatedCost (ClaimResult.report cr))
              "USD" "FED_INSTANT_SETTLEMENT") \/
       (ClaimResult.paymentInitiated cr = false /\ rest = [])) /\
      ((exists x, In x (p :: e :: rest) /\ is_settlement x) <->
       ClaimResult.paymentInitiated cr = true).
Proof.
  intros env r s. do 4 eexists.
  split; [apply performA2AHandshake_result|].
  split; [reflexivity|].
  split; [apply performA2AHandshake_logs|].
  cbn [ClaimResult.status ClaimResult.paymentInitiated ClaimResult.report].
  split; [reflexivity|]. split.
  - eexists. split; [reflexivity|].
    destruct (isApproved r); repeat split; intros; try reflexivity;
      discriminate.
  - unfold is_settlement. destruct (isApproved r); split.
    + left. split; [reflexivity|]. eexists. split; reflexivity.
    + split; [reflexivity|]. intros _.
      exists (stamp (now_settle env) (settlement r)). simpl. auto.
    + right. split; reflexivity.
    + split; [|discriminate]. intros (x & Hin & Hx). simpl in Hin.
      repeat (destruct Hin as [<- | Hin]; [simpl in Hx; discriminate|]).
      contradiction.
Qed.

(* ================================================================== *)
(** * Further properties: the event loop                               *)
(* ================================================================== *)

Section EventLoopMore.

Lemma turns_app evs1 evs2 sys :
  turns (evs1 ++ evs2) sys = turns evs2 (turns evs1 sys).
Proof. unfold turns. apply fold_left_app. Qed.

(** A turn that is not a reset leaves the transcript as it is or appends
    one entry to it. *)
Lemma turn_appends ev sys :
  is_reset ev = false ->
  exists added,
    logs (app (turn ev sys)) = logs (app sys) ++ added /\
    (List.length added <= 1)%nat.
Proof.
  intros Hev. destruct ev as [file| |i w]; [| discriminate |]; simpl.
  - destruct (WorkflowStep_eqb (step (app sys)) IDLE);
      [|exists []; rewrite app_nil_r; auto].
    destruct file as [f|]; simpl; exists []; rewrite app_nil_r; auto.
  - destruct (nth_error (pending sys) i) as [t|];
      [|exists []; rewrite app_nil_r; auto].
    destruct t as [f|f|r|r a|r a], w as [[url|]|[dr|err] now|now rnd];
      simpl; try (exists []; rewrite app_nil_r; auto; fail);
      try (eexists; split; [reflexivity | simpl; lia]).
    destruct a; simpl;
      [eexists; split; [reflexivity | simpl; lia]
      | exists []; rewrite app_nil_r; auto].
Qed.

Lemma run_prefix_snoc k l now log :
  run_prefix k l ->
  nth_error run_kinds k =
    Some (LogInit.from log, LogInit.status log, LogInit.protocol log) ->
  run_prefix (S k) (l ++ [stamp now log]).
Proof.
  unfold run_prefix. intros Hl Hk. rewrite map_app, Hl. simpl map.
  unfold kind. simpl.
  destruct k as [|[|[|k]]]; simpl in *;
    try (destruct k; discriminate);
    injection Hk as <- <- <-; reflexivity.
Qed.

(** Every turn that is not a reset keeps the step, the transcript and the
    suspended handler in accord. *)
Lemma phase_ok_turn ev sys :
  is_reset ev = false -> phase_ok sys -> phase_ok (turn ev sys).
Proof.
  intros Hev. destruct sys as [s ts]. unfold phase_ok.
  destruct ev as [file| |i w]; [| discriminate |]; cbn [turn app pending].
  - destruct (WorkflowStep_eqb (step s) IDLE) eqn:Hidle; [|auto].
    assert (Hstep : step s = IDLE)
      by (destruct (step s); simpl in Hidle; congruence).
    destruct ts as [|t [|t2 ts]];
      [| |intros H; destruct t; contradiction].
    + intros [(_ & Hl & Hr) | [(Hs & _) | (Hs & _)]]; try congruence.
      destruct file as [f|]; simpl; auto.
    + destruct t; intros (Hs & _); congruence.
  - destruct ts as [|t [|t2 ts]];
      [destruct i; auto| |intros H; destruct t; contradiction].
    destruct i as [|i]; [|destruct i; auto].
    cbn [nth_error].
    destruct t as [f|f|r|r a|r a], w as [[url|]|[dr|err] now|now rnd];
      cbn [resume]; auto; cbn [app pending settle_task firstn skipn
                                 List.app];
      intros (Hs & Hl & Hr); simpl.
    + auto.
    + right. left. auto.
    + repeat split; auto. rewrite Hl. reflexivity.
    + left. auto.
    + repeat split; auto.
      apply run_prefix_snoc; [exact Hl | reflexivity].
    + unfold handshake_settle. destruct a; [|auto].
      repeat split; auto.
      apply run_prefix_snoc; [exact Hl | reflexivity].
    + right. right. split; [reflexivity|]. eexists. split; [reflexivity|].
      exact Hl.
Qed.

Lemma phase_ok_turns evs :
  forall sys, reset_free evs -> phase_ok sys -> phase_ok (turns evs sys).
Proof.
  unfold reset_free.
  induction evs as [|ev evs IH]; intros sys Hfree Hok; [exact Hok|].
  simpl in Hfree. apply andb_true_iff in Hfree as [Hev Hfree].
  apply negb_true_iff in Hev.
  simpl. apply IH; [exact Hfree|]. apply phase_ok_turn; assumption.
Qed.

Lemma phase_ok_initial : phase_ok initialSystem.
Proof. left. repeat split. Qed.

(** In accord, the transcript has the kinds of the first entries of one
    run. *)
Lemma phase_ok_run_prefix sys :
  phase_ok sys ->
  exists k, (k <= 3)%nat /\ run_prefix k (logs (app sys)).
Proof.
  destruct sys as [s ts]. unfold phase_ok. cbn [app pending].
  destruct ts as [|t [|t2 ts]]; [| |intros H; destruct t; contradiction].
  - intros [(_ & Hl & _) | [(_ & Hl & _) | (_ & cr & _ & Hl)]].
    + exists 0%nat. rewrite Hl. split; [lia | reflexivity].
    + exists 0%nat. rewrite Hl. split; [lia | reflexivity].
    + eexists. split; [|exact Hl].
      destruct (ClaimResult.paymentInitiated cr); lia.
  - destruct t as [f|f|r|r a|r a]; intros (_ & Hl & _).
    + exists 0%nat. rewrite Hl. split; [lia | reflexivity].
    + exists 0%nat. rewrite Hl. split; [lia | reflexivity].
    + exists 1%nat. split; [lia | exact Hl].
    + exists 2%nat. split; [lia | exact Hl].
    + eexists. split; [|exact Hl]. destruct a; lia.
Qed.

Lemma nth_error_firstn_Some {A} (l : list A) :
  forall k j x, nth_error (firstn k l) j = Some x -> nth_error l j = Some x.
Proof.
  induction l as [|a l IH]; intros [|k] [|j] x H; simpl in *;
    try discriminate; auto.
  eapply IH; exact H.
Qed.

(** The entry at position [j] of such a transcript has the kind of the
    entry at position [j] of a run. *)
Lemma run_prefix_nth k l j e :
  run_prefix k l -> nth_error l j = Some e ->
  nth_error run_kinds j = Some (kind e).
Proof.
  unfold run_prefix. intros Hl Hj.
  apply (nth_error_firstn_Some run_kinds k). rewrite <- Hl.
  rewrite nth_error_map, Hj. reflexivity.
Qed.

(** A transcript with the kinds of the first entries of a run has its
    [PROCESSED] entry after the [SENT] proposal. *)
Lemma run_prefix_processed_after_sent k l :
  run_prefix k l -> processed_after_sent l.
Proof.
  intros Hl j e Hj He.
  pose proof (run_prefix_nth k l j e Hl Hj) as Hk.
  unfold run_kinds, kind in Hk. rewrite He in Hk.
  destruct j as [|[|[|j]]]; simpl in Hk; try discriminate;
    [|destruct j; discriminate].
  injection Hk as Hfrom.
  destruct l as [|p l]; [discriminate|].
  pose proof (run_prefix_nth k (p :: l) 0 p Hl eq_refl) as Hp.
  unfold run_kinds, kind in Hp. simpl in Hp. injection Hp as Hpf Hps _.
  exists 0%nat, p. simpl.
  repeat split; [lia | congruence | rewrite <- Hfrom, <- Hpf; reflexivity].
Qed.

End EventLoopMore.

(** X7: the transcript is append-only between resets: over any events
    without a reset, whatever is suspended, the entries already there stay
    where they are, unchanged, and at most one entry per event is added
    behind them. *)
Theorem transcript_grows_between_resets :
  forall (evs : list Event) (sys : System),
    reset_free evs ->
    exists added,
      logs (app (turns evs sys)) = logs (app sys) ++ added /\
      (List.length added <= List.length evs)%nat.
Proof.
  unfold reset_free.
  induction evs as [|ev evs IH]; intros sys Hfree.
  - exists []. rewrite app_nil_r. auto.
  - simpl in Hfree. apply andb_true_iff in Hfree as [Hev Hfree].
    apply negb_true_iff in Hev.
    destruct (turn_appends ev sys Hev) as (a1 & Ha1 & Hl1).
    destruct (IH (turn ev sys) Hfree) as (a2 & Ha2 & Hl2).
    exists (a1 ++ a2). simpl turns. fold (turns evs (turn ev sys)).
    rewrite Ha2, Ha1, <- app_assoc. split; [reflexivity|].
    rewrite length_app. simpl. lia.
Qed.

Lemma transcript_grows_between_resets_witness :
  exists added,
    logs (app (turns (uninterrupted
                        (upload_ok scenario_env
                                   (scenario_report Moderate 3200%float))
                        sample_file)
                     initialSystem)) =
    logs (app initialSystem) ++ added /\
    (List.length added <= 6)%nat.
Proof.
  apply (transcript_grows_between_resets
           (uninterrupted
              (upload_ok scenario_env (scenario_report Moderate 3200%float))
              sample_file)
           initialSystem).
  reflexivity.
Defined.

(** X8: a reset does not cancel a handshake that is under way.  When the
    reset button is clicked while the handshake waits for its first timer,
    the three timers still fire and the handshake finishes on the cleared
    session: the step ends at COMPLETED with a result for the report of the
    cancelled upload, while the report cell is empty, the transcript lacks
    the proposal, and the status card of an approved claim has no amount to
    show. *)
Theorem reset_mid_handshake_completes :
  forall (r : DamageReport.t) (s : AppState)
         (now2 now3 now4 rnd2 rnd3 rnd : string),
    let sys := turns [EvReset;
                      EvWake 0 (TimerFired now2 rnd2);
                      EvWake 0 (TimerFired now3 rnd3);
                      EvWake 0 (TimerFired now4 rnd)]
                     {| app := s; pending := [AwaitDelay1 r] |} in
    pending sys = [] /\
    step (app sys) = COMPLETED /\
    report (app sys) = None /\
    reportPanel (app sys) = None /\
    (exists cr, result (app sys) = Some cr /\ ClaimResult.report cr = r /\
                ClaimResult.paymentInitiated cr = isApproved r) /\
    logs (app sys) =
      stamp now2 (evaluation (isApproved r)) ::
      (if isApproved r then [stamp now3 (settlement r)] else []) /\
    ~ processed_after_sent (logs (app sys)) /\
    (isApproved r = true ->
     option_map card_message (statusCard (app sys)) =
     Some (PayoutAuthorized None)).
Proof.
  intros r s now2 now3 now4 rnd2 rnd3 rnd sys. subst sys.
  unfold turns. cbn [fold_left turn app pending nth_error resume
                     settle_task firstn skipn List.app].
  unfold handshake_settle.
  destruct (isApproved r) eqn:Happ; cbn; repeat split;
    try (eexists; repeat split; reflexivity);
    try discriminate;
    intros H; destruct (H 0%nat _ eq_refl eq_refl) as (i & _ & Hi & _); lia.
Qed.

(** X9: without a reset at most one handler is ever suspended, and while
    one is suspended the step is not IDLE, so the upload area is not on the
    page and no second upload can start. *)
Theorem single_handler_in_flight :
  forall evs : list Event,
    reset_free evs ->
    let sys := turns evs initialSystem in
    (List.length (pending sys) <= 1)%nat /\
    (pending sys <> [] ->
     step (app sys) <> IDLE /\ uploadArea (app sys) = false).
Proof.
  intros evs Hfree sys.
  pose proof (phase_ok_turns evs initialSystem Hfree phase_ok_initial) as Hok.
  fold sys in Hok. destruct sys as [s ts]. unfold phase_ok in Hok.
  cbn [app pending] in *. unfold uploadArea.
  destruct ts as [|t [|t2 ts]]; [| |destruct t; contradiction].
  - split; [simpl; lia | intros H; contradiction].
  - split; [simpl; lia|]. intros _.
    destruct t; destruct Hok as (-> & _); split; try discriminate;
      reflexivity.
Qed.

Lemma single_handler_in_flight_witness :
  (List.length (pending (turns [EvUpload (Some sample_file)]
                           initialSystem)) <= 1)%nat /\
  (pending (turns [EvUpload (Some sample_file)] initialSystem) <> [] ->
   step (app (turns [EvUpload (Some sample_file)] initialSystem)) <> IDLE /\
   uploadArea (app (turns [EvUpload (Some sample_file)] initialSystem))
     = false).
Proof.
  apply (single_handler_in_flight [EvUpload (Some sample_file)]).
  reflexivity.
Defined.

(** With a reset in between, a second upload starts while the first is
    still suspended. *)
Example two_handlers_after_reset :
  pending (turns [EvUpload (Some sample_file); EvReset;
                  EvUpload (Some sample_file)] initialSystem) =
  [AwaitLoadEnd sample_file; AwaitLoadEnd sample_file].
Proof. reflexivity. Qed.

(** X10: without a reset the transcript is, at every moment, the beginning
    of the transcript of one run: at most three entries, the proposal
    first, every PROCESSED entry after a SENT entry from the opposite
    agent; and the step the visualizer is given never exceeds 3. *)
Theorem transcript_in_order_between_resets :
  forall evs : list Event,
    reset_free evs ->
    let s := app (turns evs initialSystem) in
    (List.length (logs s) <= 3)%nat /\
    (forall e, nth_error (logs s) 0 = Some e ->
       HandshakeLog.from e = GoogleAgent /\ HandshakeLog.status e = SENT) /\
    processed_after_sent (logs s) /\
    (visualizer_step s <= 3)%nat.
Proof.
  intros evs Hfree s.
  pose proof (phase_ok_turns evs initialSystem Hfree phase_ok_initial) as Hok.
  destruct (phase_ok_run_prefix _ Hok) as (k & Hk & Hpre). fold s in Hpre.
  assert (Hlen : (List.length (logs s) <= 3)%nat).
  { unfold run_prefix in Hpre.
    rewrite <- (length_map kind), Hpre, length_firstn. simpl. lia. }
  split; [exact Hlen|]. split; [|split].
  - intros e He. pose proof (run_prefix_nth k _ 0 e Hpre He) as H0.
    unfold run_kinds, kind in H0. simpl in H0. injection H0 as <- <- _.
    split; reflexivity.
  - exact (run_prefix_processed_after_sent k _ Hpre).
  - unfold visualizer_step.
    destruct (WorkflowStep_eqb (step s) COMPLETED); [lia|].
    destruct (WorkflowStep_eqb (step s) A2A_HANDSHAKE); [exact Hlen | lia].
Qed.

Lemma transcript_in_order_between_resets_witness :
  processed_after_sent
    (logs (app (turns (uninterrupted
                         (upload_ok scenario_env
                                    (scenario_report Moderate 3200%float))
                         sample_file)
                      initialSystem))).
Proof.
  apply (transcript_in_order_between_resets
           (uninterrupted
              (upload_ok scenario_env (scenario_report Moderate 3200%float))
              sample_file)).
  reflexivity.
Defined.

(** X11: without a reset the step only moves along IDLE to UPLOADING to
    GEMINI_ANALYSIS to A2A_HANDSHAKE to COMPLETED, or from GEMINI_ANALYSIS
    back to IDLE when the analysis fails; every other event leaves it where
    it is.  In particular no event but a reset leaves COMPLETED. *)
Theorem step_moves_between_resets :
  forall (evs : list Event) (ev : Event),
    reset_free (evs ++ [ev]) ->
    let before := step (app (turns evs initialSystem)) in
    let after := step (app (turns (evs ++ [ev]) initialSystem)) in
    after = before \/ step_move before after = true.
Proof.
  intros evs ev Hfree before after. subst before after.
  unfold reset_free in Hfree. rewrite forallb_app in Hfree.
  apply andb_true_iff in Hfree as [Hfree Hev].
  simpl in Hev. rewrite andb_true_r in Hev. apply negb_true_iff in Hev.
  rewrite turns_app.
  pose proof (phase_ok_turns evs initialSystem Hfree phase_ok_initial) as Hok.
  destruct (turns evs initialSystem) as [s ts]. unfold phase_ok in Hok.
  unfold turns. cbn [fold_left app pending] in *.
  destruct ev as [file| |i w]; [| discriminate |]; cbn [turn app pending].
  - destruct (step s) eqn:Hs; cbn [WorkflowStep_eqb]; auto.
    destruct file as [f|]; cbn; rewrite ?Hs; auto.
  - destruct ts as [|t [|t2 ts]];
      [destruct i; auto| |destruct t; contradiction].
    destruct i as [|i]; [|destruct i; auto].
    cbn [nth_error].
    destruct t as [f|f|r|r a|r a], w as [[url|]|[dr|err] now|now rnd];
      cbn [resume app]; auto; destruct Hok as (Hs & _);
      unfold handshake_settle; try destruct a; cbn; rewrite ?Hs; auto.
Qed.

Lemma step_moves_between_resets_witness :
  step (app (turns ([] ++ [EvUpload (Some sample_file)]) initialSystem)) =
    step (app (turns [] initialSystem)) \/
  step_move (step (app (turns [] initialSystem)))
            (step (app (turns ([] ++ [EvUpload (Some sample_file)])
                          initialSystem))) = true.
Proof.
  apply (step_moves_between_resets [] (EvUpload (Some sample_file))).
  reflexivity.
Defined.

(** With a reset in between a suspended handshake moves the step from IDLE
    straight to COMPLETED. *)
Example step_jumps_after_reset :
  let sys := turns [EvUpload (Some sample_file);
                    EvWake 0 (LoadEnd (Some sample_url));
                    EvWake 0 (AnalysisSettled
                                (inl (scenario_report Moderate 3200%float))
                                "10:15:01 AM");
                    EvWake 0 (TimerFired "10:15:02 AM" "");
                    EvWake 0 (TimerFired "10:15:04 AM" "");
                    EvReset] initialSystem in
  step (app sys) = IDLE /\
  step (app (turn (EvWake 0 (TimerFired "10:15:05 AM" "0.i")) sys)) =
    COMPLETED.
Proof. split; reflexivity. Qed.

(** X12: a file read that fails leaves the session in UPLOADING for good.
    The handler stops before its [try], so nothing is suspended any more,
    the page shows the processing panel and no upload area, and no event
    but a reset changes anything. *)
Theorem failed_read_is_stuck :
  forall (f : File) (s : AppState),
    step s = IDLE ->
    let sys := turns [EvUpload (Some f); EvWake 0 (LoadEnd None)]
                     {| app := s; pending := [] |} in
    app sys = setStep UPLOADING s /\
    pending sys = [] /\
    uploadArea (app sys) = false /\
    processingPanel (app sys) = Some "Ingesting Evidence..." /\
    (forall ev, is_reset ev = false -> turn ev sys = sys) /\
    step (app (turn EvReset sys)) = IDLE.
Proof.
  intros f s Hidle sys. subst sys. unfold turns. simpl. rewrite Hidle.
  simpl. repeat split.
  intros ev Hev. destruct ev as [file| |i w]; [| discriminate |]; simpl.
  - reflexivity.
  - destruct i; reflexivity.
Qed.

Lemma failed_read_is_stuck_witness :
  app (turns [EvUpload (Some sample_file); EvWake 0 (LoadEnd None)]
             {| app := initialState; pending := [] |}) =
    setStep UPLOADING initialState /\
  pending (turns [EvUpload (Some sample_file); EvWake 0 (LoadEnd None)]
                 {| app := initialState; pending := [] |}) = [].
Proof.
  destruct (failed_read_is_stuck sample_file initialState eq_refl)
    as (Happ & Hpending & _).
  split; [exact Happ | exact Hpending].
Defined.

(** X13: during an upload that nothing interrupts and whose analysis
    succeeds, the step handed to the visualizer goes 0, 0, 1, 2, then 3 for
    an approved claim or 2 for a claim sent to manual review, then 3 at
    completion: it never goes down, and for a claim sent to manual review
    it ends one above the number of entries of the transcript.  The
    visualizer is told that the handshake is in progress from the proposal
    to the last timer. *)
Theorem visualizer_progress :
  forall (env : UploadEnv) (f : File) (s : AppState) (url : string)
         (r : DamageReport.t),
    step s = IDLE -> logs s = [] ->
    reader_result env = Some url ->
    analyzeDamage env (nth_error (split_comma url) 1) (type f) = inl r ->
    let states := map app (trace (uninterrupted env f)
                                 {| app := s; pending := [] |}) in
    map visualizer_step states =
      [0; 0; 1; 2; if isApproved r then 3 else 2; 3]%nat /\
    map visualizer_isProcessing states =
      [false; false; true; true; true; false] /\
    (isApproved r = false ->
     option_map (fun last => List.length (logs last)) (nth_error states 5) =
     Some 2%nat).
Proof.
  intros env f s url r Hidle Hlogs Hread Hana states. subst states.
  unfold uninterrupted. rewrite Hread. cbv zeta. rewrite Hana.
  cbn [trace turn app pending]. rewrite Hidle.
  cbn [WorkflowStep_eqb upload_begin List.app nth_error resume settle_task
       firstn skipn app pending map].
  unfold visualizer_step, visualizer_isProcessing, handshake_settle.
  destruct (isApproved r); cbn; rewrite Hlogs; repeat split;
    intros; discriminate.
Qed.

Lemma visualizer_progress_witness :
  map visualizer_step
    (map app (trace (uninterrupted
                       (upload_ok scenario_env
                                  (scenario_report Severe 5000%float))
                       sample_file)
                    {| app := initialState; pending := [] |})) =
  [0; 0; 1; 2; 2; 3]%nat.
Proof.
  apply (visualizer_progress
           (upload_ok scenario_env (scenario_report Severe 5000%float))
           sample_file initialState sample_url
           (scenario_report Severe 5000%float)
           eq_refl eq_refl eq_refl eq_refl).
Defined.

(* ================================================================== *)
(** * Further properties: sessions at the page                         *)
(* ================================================================== *)

Section SessionMore.

Lemma resetWorkflow_initial (s : AppState) : resetWorkflow s = initialState.
Proof. reflexivity. Qed.

Lemma page_ok_initial : page_ok initialState.
Proof.
  unfold page_ok. simpl. repeat split; auto; try discriminate.
  intros H. contradiction.
Qed.

(** Every user action, its handler run to the end, keeps the state of the
    page in order. *)
Lemma page_ok_userAction env a s :
  page_ok s -> page_ok (fst (userAction env a s)).
Proof.
  intros Hok. destruct a as [file|]; simpl; [|apply page_ok_initial].
  unfold fileInput_onChange.
  destruct (WorkflowStep_eqb (step s) IDLE) eqn:Hidle; [|exact Hok].
  assert (Hstep : step s = IDLE)
    by (destruct (step s); simpl in Hidle; congruence).
  destruct Hok as (_ & Hres & _ & Hclear).
  assert (Hnone : result s = None).
  { destruct (result s) eqn:Hr; [|reflexivity].
    assert (step s = COMPLETED) by (apply Hres; discriminate). congruence. }
  destruct Hclear as [Hrep Hlogs]; [congruence|].
  unfold handleFileUpload. destruct file as [f|].
  - destruct (reader_result env) as [url|].
    + destruct (analyzeDamage env (nth_error (split_comma url) 1) (type f))
        as [dr|err].
      * cbn [fst]. unfold page_ok.
        rewrite performA2AHandshake_step, performA2AHandshake_result,
                performA2AHandshake_report, performA2AHandshake_logs.
        split; [auto|]. split; [split; [discriminate | reflexivity]|].
        split; [|intros H; contradiction].
        intros cr Hcr. injection Hcr as <-.
        cbn [ClaimResult.report ClaimResult.paymentInitiated
             ClaimResult.status setStep setReport setPreviewUrl report logs].
        rewrite Hlogs.
        split; [reflexivity|]. split.
        { unfold performA2AHandshake, handshake_settle.
          destruct (isApproved dr); discriminate. }
        split; [reflexivity|].
        destruct (isApproved dr); repeat split; congruence.
      * cbn [fst]. unfold page_ok. simpl. rewrite Hnone.
        repeat split; auto; try discriminate. intros H. contradiction.
    + cbn [fst]. unfold page_ok. simpl. rewrite Hnone.
      repeat split; auto; try discriminate. intros H. contradiction.
  - cbn [fst]. unfold page_ok. rewrite Hstep, Hnone.
    repeat split; auto; try discriminate. intros H. contradiction.
Qed.

Lemma page_ok_session acts :
  forall s, page_ok s -> page_ok (session acts s).
Proof.
  induction acts as [|[env a] acts IH]; intros s Hs; [exact Hs|].
  simpl. apply IH. apply page_ok_userAction. exact Hs.
Qed.

End SessionMore.

(** X14: after every action of a session at the page, each handler run
    to its end, the state is in one of three shapes.  At COMPLETED there is
    a result, the report in the state is the report the result holds, the
    result carries the verdict of that report, the evidence preview is
    there and the transcript has three entries when a payment was initiated
    and two otherwise.  Anywhere else (IDLE, or UPLOADING after a failed
    read) there is no result, no report and no transcript. *)
Theorem page_session_invariant :
  forall acts : list (UploadEnv * UserAction),
    let s := session acts initialState in
    (step s = IDLE \/ step s = UPLOADING \/ step s = COMPLETED) /\
    (step s = COMPLETED <-> result s <> None) /\
    (forall cr, result s = Some cr ->
       report s = Some (ClaimResult.report cr) /\
       previewUrl s <> None /\
       ClaimResult.paymentInitiated cr = isApproved (ClaimResult.report cr) /\
       (ClaimResult.status cr = APPROVED <->
        isApproved (ClaimResult.report cr) = true) /\
       List.length (logs s) =
         (if ClaimResult.paymentInitiated cr then 3 else 2)%nat) /\
    (step s <> COMPLETED -> report s = None /\ logs s = []).
Proof.
  intros acts s. exact (page_ok_session acts initialState page_ok_initial).
Qed.

(** X15: in a session at the page the status card tells the truth about
    the payout.  When the result is APPROVED the card announces a payout
    whose amount, read from the report cell of the state, is the estimated
    cost of the report the result holds and is below the threshold; the
    payment box shows the same amount and the report panel that report.
    When the result is MANUAL_REVIEW the card shows the escalation
    sentence and no payment box. *)
Theorem status_card_shows_result_cost :
  forall (acts : list (UploadEnv * UserAction)) (cr : ClaimResult.t),
    let s := session acts initialState in
    result s = Some cr ->
    let cost := DamageReport.estimatedCost (ClaimResult.report cr) in
    reportPanel s = Some (ClaimResult.report cr) /\
    (ClaimResult.status cr = APPROVED ->
     (cost <? APPROVAL_THRESHOLD)%float = true /\
     option_map card_message (statusCard s) =
       Some (PayoutAuthorized (Some cost)) /\
     option_map card_paymentBox (statusCard s) = Some (Some (Some cost))) /\
    (ClaimResult.status cr = MANUAL_REVIEW ->
     option_map card_message (statusCard s) = Some Escalated /\
     option_map card_paymentBox (statusCard s) = Some None).
Proof.
  intros acts cr s Hcr cost. subst cost.
  destruct (page_ok_session acts initialState page_ok_initial)
    as (_ & Hres & Hcard & _).
  fold s in Hres, Hcard.
  destruct (Hcard cr Hcr) as (Hrep & _ & Hpay & Hstatus & _).
  assert (Hstep : step s = COMPLETED) by (apply Hres; congruence).
  unfold reportPanel, statusCard. rewrite Hstep, Hcr, Hrep, Hpay.
  cbn [WorkflowStep_eqb orb option_map].
  split; [reflexivity|]. split.
  - intros Happ. rewrite Happ. apply Hstatus in Happ. rewrite Happ.
    repeat split. exact Happ.
  - intros Hman.
    destruct (isApproved (ClaimResult.report cr)) eqn:Happ.
    + assert (ClaimResult.status cr = APPROVED) by (apply Hstatus; auto).
      congruence.
    + rewrite Hman. split; reflexivity.
Qed.

Lemma status_card_shows_result_cost_witness :
  option_map card_message
    (statusCard
       (session [(upload_ok scenario_env
                            (scenario_report Moderate 3200%float),
                  UploadEvidence (Some sample_file))] initialState)) =
  Some (PayoutAuthorized (Some 3200%float)).
Proof.
  destruct (status_card_shows_result_cost
              [(upload_ok scenario_env (scenario_report Moderate 3200%float),
                UploadEvidence (Some sample_file))]
              {| ClaimResult.status := APPROVED
               ; ClaimResult.paymentInitiated := true
               ; ClaimResult.referenceId := "CLM-4FZYO82MV"
               ; ClaimResult.report := scenario_report Moderate 3200%float |}
              eq_refl)
    as (_ & Happroved & _).
  destruct (Happroved eq_refl) as (_ & Hmsg & _). exact Hmsg.
Defined.

(** X16: a reset makes the rest of a session at the page independent of
    what came before: the actions after a click on the reset button lead to
    the state they lead to in a fresh session. *)
Theorem reset_forgets_history :
  forall (before after : list (UploadEnv * UserAction)) (env : UploadEnv)
         (s : AppState),
    session (before ++ (env, ClickReset) :: after) s =
    session after initialState.
Proof.
  intros before after env s. unfold session.
  rewrite fold_left_app. cbn [fold_left fst snd userAction
                              resetButton_onClick].
  rewrite resetWorkflow_initial. reflexivity.
Qed.

(** On the event loop a reset forgets the state but not the handlers that
    are suspended: the rest depends on them. *)
Example reset_keeps_suspended_handlers :
  turn EvReset {| app := scenario_run Moderate 3200%float
                ; pending := [AwaitDelay3 (other_report 100%float) true] |} =
  {| app := initialState
   ; pending := [AwaitDelay3 (other_report 100%float) true] |}.
Proof. reflexivity. Qed.

(** X17: in every state the left column of the page shows exactly one of
    the upload area, the processing panel and the terminal: the upload area
    at IDLE, the processing panel at UPLOADING and GEMINI_ANALYSIS, the
    terminal with the whole transcript at A2A_HANDSHAKE and COMPLETED.  The
    report panel is only ever shown beside the terminal, and the status
    card and its placeholder are never shown together. *)
Theorem one_panel_at_a_time :
  forall s : AppState,
    ((uploadArea s = true /\ step s = IDLE /\
      processingPanel s = None /\ terminal s = None) \/
     (uploadArea s = false /\
      (step s = UPLOADING \/ step s = GEMINI_ANALYSIS) /\
      processingPanel s <> None /\ terminal s = None) \/
     (uploadArea s = false /\
      (step s = A2A_HANDSHAKE \/ step s = COMPLETED) /\
      processingPanel s = None /\ terminal s = Some (logs s))) /\
    (reportPanel s <> None -> terminal s <> None) /\
    (placeholder s = true <-> statusCard s = None).
Proof.
  intros s. unfold uploadArea, processingPanel, terminal, reportPanel,
    placeholder, statusCard.
  split; [|split].
  - destruct (step s); simpl.
    + left. repeat split.
    + right. left. repeat split; auto. discriminate.
    + right. left. repeat split; auto. discriminate.
    + right. right. repeat split; auto.
    + right. right. repeat split; auto.
  - destruct (step s); simpl; auto; discriminate.
  - destruct (result s); split; intros H; try reflexivity; discriminate.
Qed.

(* ================================================================== *)
(** * The transcript, with and without resets                          *)
(* ================================================================== *)

Section TranscriptAndResets.

Lemma run_prefix_length k l :
  run_prefix k l -> List.length l = Nat.min k 3.
Proof.
  unfold run_prefix. intros H.
  rewrite <- (length_map kind), H, length_firstn. reflexivity.
Qed.

Lemma run_shape_nil : run_shape [].
Proof. intros [|j] e H; discriminate. Qed.

(** Appending the entry that belongs at the end keeps the shape. *)
Lemma run_shape_snoc l e :
  run_shape l -> entry_of_run (List.length l) e -> run_shape (l ++ [e]).
Proof.
  intros Hl He j x Hj.
  destruct (Nat.lt_ge_cases j (List.length l)) as [Hlt | Hge].
  - rewrite nth_error_app1 in Hj by exact Hlt. apply Hl. exact Hj.
  - rewrite nth_error_app2 in Hj by exact Hge.
    destruct (j - List.length l)%nat as [|d] eqn:Hd; simpl in Hj.
    + injection Hj as <-.
      replace j with (List.length l) by lia. exact He.
    + destruct d; discriminate.
Qed.

(** Every turn that is not a reset keeps the shape of the transcript, when
    step, transcript and suspended handler are in accord. *)
Lemma run_shape_turn ev sys :
  is_reset ev = false -> phase_ok sys ->
  run_shape (logs (app sys)) -> run_shape (logs (app (turn ev sys))).
Proof.
  intros Hev. destruct sys as [s ts]. unfold phase_ok.
  destruct ev as [file| |i w]; [| discriminate |]; cbn [turn app pending].
  - destruct (WorkflowStep_eqb (step s) IDLE); [|auto].
    destruct file as [f|]; simpl; auto.
  - destruct ts as [|t [|t2 ts]];
      [destruct i; auto| |intros H; destruct t; contradiction].
    destruct i as [|i]; [|destruct i; auto].
    cbn [nth_error].
    destruct t as [f|f|r|r a|r a], w as [[url|]|[dr|err] now|now rnd];
      cbn [resume]; auto; cbn [app]; intros (Hs & Hl & Hr) Hshape;
      try exact Hshape.
    + simpl. apply run_shape_snoc; [exact Hshape|].
      rewrite Hl. simpl. eauto.
    + simpl. apply run_shape_snoc; [exact Hshape|].
      rewrite (run_prefix_length _ _ Hl). simpl. eauto.
    + unfold handshake_settle. destruct a; [|exact Hshape].
      simpl. apply run_shape_snoc; [exact Hshape|].
      rewrite (run_prefix_length _ _ Hl). simpl. eauto.
Qed.

Lemma run_shape_turns evs :
  forall sys,
    reset_free evs -> phase_ok sys -> run_shape (logs (app sys)) ->
    run_shape (logs (app (turns evs sys))).
Proof.
  unfold reset_free.
  induction evs as [|ev evs IH]; intros sys Hfree Hok Hshape; [exact Hshape|].
  simpl in Hfree. apply andb_true_iff in Hfree as [Hev Hfree].
  apply negb_true_iff in Hev. simpl.
  apply IH; [exact Hfree | apply phase_ok_turn; assumption |].
  apply run_shape_turn; assumption.
Qed.

(** Which entry stands where is read off its [method]. *)
Lemma entry_of_run_position j e :
  entry_of_run j e ->
  (is_proposal e <-> j = 0%nat) /\
  (is_evaluation e <-> j = 1%nat) /\
  (is_settlement e <-> j = 2%nat) /\
  (j = 2%nat -> HandshakeLog.status e = SENT /\
                HandshakeLog.protocol e = AP2) /\
  (j <> 2%nat -> HandshakeLog.protocol e = A2A).
Proof.
  unfold is_proposal, is_evaluation, is_settlement.
  destruct j as [|[|[|j]]]; simpl; [| | |contradiction];
    intros (now & x & ->); simpl;
    repeat split; intros; try reflexivity; try discriminate;
    try lia; try contradiction.
Qed.

(** A transcript of that shape is in order. *)
Lemma run_shape_order l :
  run_shape l ->
  precedes is_proposal is_evaluation l /\
  precedes is_evaluation is_settlement l /\
  (forall x, In x l -> is_settlement x -> HandshakeLog.status x = SENT).
Proof.
  intros Hl. split; [|split].
  - intros i j x y Hi Hj Hx Hy.
    apply (entry_of_run_position i x (Hl _ _ Hi)) in Hx.
    apply (entry_of_run_position j y (Hl _ _ Hj)) in Hy. lia.
  - intros i j x y Hi Hj Hx Hy.
    apply (entry_of_run_position i x (Hl _ _ Hi)) in Hx.
    apply (entry_of_run_position j y (Hl _ _ Hj)) in Hy. lia.
  - intros x Hin Hx. destruct (In_nth_error _ _ Hin) as [j Hj].
    destruct (entry_of_run_position j x (Hl _ _ Hj))
      as (_ & _ & Hset & Hsent & _).
    apply Hsent. apply Hset. exact Hx.
Qed.

(** Without a reset a result is only there at completion, beside the
    transcript of its own run: two entries, or three when a payment was
    initiated. *)
Lemma phase_ok_result sys cr :
  phase_ok sys -> result (app sys) = Some cr ->
  pending sys = [] /\ step (app sys) = COMPLETED /\
  run_prefix (if ClaimResult.paymentInitiated cr then 3 else 2)
             (logs (app sys)).
Proof.
  destruct sys as [s ts]. unfold phase_ok. cbn [app pending].
  intros Hok Hcr.
  destruct ts as [|t [|t2 ts]]; [| |destruct t; contradiction].
  - destruct Hok as [(_ & _ & Hr) | [(_ & _ & Hr) | (Hs & cr' & Hr & Hl)]];
      try congruence.
    assert (cr' = cr) by congruence. subst cr'. auto.
  - destruct t; destruct Hok as (_ & _ & Hr); congruence.
Qed.

(** A reset that comes when nothing is suspended starts afresh. *)
Lemma phase_ok_reset_at_rest s :
  phase_ok (turn EvReset {| app := s; pending := [] |}) /\
  run_shape (logs (app (turn EvReset {| app := s; pending := [] |}))).
Proof. split; [left; repeat split | apply run_shape_nil]. Qed.

(** As long as every reset comes when nothing is suspended, the step, the
    transcript and the suspended handler stay in accord and the transcript
    keeps the shape of the transcript of one run. *)
Lemma at_rest_turns evs :
  forall sys,
    resets_at_rest evs sys = true ->
    phase_ok sys -> run_shape (logs (app sys)) ->
    phase_ok (turns evs sys) /\ run_shape (logs (app (turns evs sys))).
Proof.
  induction evs as [|ev evs IH]; intros sys Hrest Hok Hshape; [auto|].
  simpl in Hrest. apply andb_true_iff in Hrest as [Hev Hrest].
  simpl. apply IH; [exact Hrest | |].
  - destruct (is_reset ev) eqn:Hr.
    + destruct ev; try discriminate. destruct sys as [s [|t ts]];
        [apply phase_ok_reset_at_rest | discriminate].
    + apply phase_ok_turn; assumption.
  - destruct (is_reset ev) eqn:Hr.
    + destruct ev; try discriminate. destruct sys as [s [|t ts]];
        [apply phase_ok_reset_at_rest | discriminate].
    + apply run_shape_turn; assumption.
Qed.

Lemma at_rest_from_initial evs :
  resets_at_rest evs initialSystem = true ->
  phase_ok (turns evs initialSystem) /\
  run_shape (logs (app (turns evs initialSystem))).
Proof.
  intros Hrest.
  apply at_rest_turns; [exact Hrest | apply phase_ok_initial |].
  apply run_shape_nil.
Qed.

(** The transcript beside a result, in such an execution: the proposal and
    the evaluation, and the settlement exactly when a payment was
    initiated. *)
Lemma at_rest_result_transcript evs cr :
  resets_at_rest evs initialSystem = true ->
  result (app (turns evs initialSystem)) = Some cr ->
  List.length (logs (app (turns evs initialSystem))) =
    (if ClaimResult.paymentInitiated cr then 3 else 2)%nat /\
  (ClaimResult.paymentInitiated cr = false ->
   Forall not_payment (logs (app (turns evs initialSystem)))).
Proof.
  intros Hrest Hcr.
  destruct (at_rest_from_initial evs Hrest) as [Hok Hshape].
  destruct (phase_ok_result _ cr Hok Hcr) as (_ & _ & Hpre).
  pose proof (run_prefix_length _ _ Hpre) as Hlen.
  split; [rewrite Hlen; destruct (ClaimResult.paymentInitiated cr);
          reflexivity|].
  intros Hno. rewrite Hno in Hlen. apply Forall_forall. intros e Hin.
  destruct (In_nth_error _ _ Hin) as [j Hj].
  assert (Hj2 : (j < 2)%nat).
  { change (Nat.min 2 3) with 2%nat in Hlen. rewrite <- Hlen.
    apply nth_error_Some. congruence. }
  destruct (entry_of_run_position j e (Hshape _ _ Hj))
    as (_ & _ & _ & _ & Hproto).
  unfold not_payment. rewrite Hproto by lia. discriminate.
Qed.

End TranscriptAndResets.

(** C2, as the claim states it, fails.  A first upload, approved, is reset
    after its evaluation; a second upload, on a cost of 12000, starts its
    handshake on the emptied transcript; the settlement of the first
    handshake, which the reset has not cancelled, lands in that transcript.
    The second run completes with MANUAL_REVIEW beside a transcript of
    three entries, one of them tagged with the payment protocol. *)
Lemma payment_entry_beside_manual_review :
  let started := turns second_upload_started initialSystem in
  let sys := turns second_handshake started in
  logs (app started) = [] /\
  pending sys = [] /\ step (app sys) = COMPLETED /\
  exists cr,
    result (app sys) = Some cr /\
    ClaimResult.status cr = MANUAL_REVIEW /\
    ClaimResult.paymentInitiated cr = false /\
    (APPROVAL_THRESHOLD <=?
       DamageReport.estimatedCost (ClaimResult.report cr))%float = true /\
    map HandshakeLog.protocol (logs (app sys)) = [A2A; AP2; A2A] /\
    ~ Forall not_payment (logs (app sys)).
Proof.
  vm_compute. repeat split. eexists. repeat split.
  intros H. inversion H as [|x l _ Htl]; subst.
  inversion Htl as [|y l' Hy _]; subst. apply Hy. reflexivity.
Qed.

(** C2, amended: a run on a report whose cost is below the threshold
    appends exactly three entries to the transcript; a run on a report
    whose cost is at or above the threshold appends exactly two, neither of
    them tagged with the payment protocol, so that an uninterrupted run
    leaves a transcript free of payment entries free of them.  As long as
    every reset comes when no handler is suspended, the transcript beside a
    result has exactly three entries when the cost of the result's report
    is below the threshold, and exactly two, none of them tagged with the
    payment protocol, when it is at or above. *)
Theorem transcript_entries_by_branch :
  (forall (env : HandshakeEnv) (r : DamageReport.t) (s : AppState),
     ((DamageReport.estimatedCost r <? APPROVAL_THRESHOLD)%float = true ->
      exists added,
        logs (performA2AHandshake env r s) = logs s ++ added /\
        List.length added = 3%nat) /\
     ((APPROVAL_THRESHOLD <=? DamageReport.estimatedCost r)%float = true ->
      exists added,
        logs (performA2AHandshake env r s) = logs s ++ added /\
        List.length added = 2%nat /\
        Forall not_payment added /\
        (Forall not_payment (logs s) ->
         Forall not_payment (logs (performA2AHandshake env r s))))) /\
  (forall (evs : list Event) (cr : ClaimResult.t),
     resets_at_rest evs initialSystem = true ->
     result (app (turns evs initialSystem)) = Some cr ->
     ((DamageReport.estimatedCost (ClaimResult.report cr)
         <? APPROVAL_THRESHOLD)%float = true ->
      List.length (logs (app (turns evs initialSystem))) = 3%nat) /\
     ((APPROVAL_THRESHOLD <=?
         DamageReport.estimatedCost (ClaimResult.report cr))%float = true ->
      List.length (logs (app (turns evs initialSystem))) = 2%nat /\
      Forall not_payment (logs (app (turns evs initialSystem))))).
Proof.
  split.
  - intros env r s. split.
    + intros Hlt. rewrite performA2AHandshake_logs. unfold isApproved.
      rewrite Hlt. eexists. split; reflexivity.
    + intros Hge. apply ltb_false_of_leb in Hge.
      rewrite (performA2AHandshake_logs_not_approved env r s Hge).
      assert (Hnew : Forall not_payment
                       [stamp (now_propose env) (proposal r);
                        stamp (now_evaluate env) (evaluation false)])
        by (repeat constructor; discriminate).
      eexists. repeat split; [exact Hnew|].
      intros Hold. apply Forall_app. split; assumption.
  - intros evs cr Hrest Hcr.
    destruct (at_rest_result_transcript evs cr Hrest Hcr) as [Hlen Hfree].
    assert (Hreach : reachable (turns evs initialSystem))
      by (exists evs; reflexivity).
    destruct (reachable_ok _ Hreach) as [[_ Hres] _].
    destruct (Hres cr Hcr) as [Hpay Hstatus].
    unfold payment_iff_approved, isApproved in *.
    split.
    + intros Hlt. apply Hstatus, Hpay in Hlt. rewrite Hlt in Hlen.
      exact Hlen.
    + intros Hge. apply ltb_false_of_leb in Hge.
      destruct (ClaimResult.paymentInitiated cr) eqn:Hp.
      * assert ((DamageReport.estimatedCost (ClaimResult.report cr)
                   <? APPROVAL_THRESHOLD)%float = true)
          by (apply Hstatus, Hpay; reflexivity).
        congruence.
      * split; [exact Hlen | apply Hfree; reflexivity].
Qed.

(** The two branches on the scenarios of the specification, run alone and
    run on the event loop: 3200 is below the threshold, 5000 is not. *)
Lemma transcript_entries_by_branch_witness :
  (exists added,
     logs (scenario_run Moderate 3200%float) = [] ++ added /\
     List.length added = 3%nat) /\
  (exists added,
     logs (scenario_run Severe 5000%float) = [] ++ added /\
     List.length added = 2%nat /\
     Forall not_payment added /\
     (Forall not_payment [] ->
      Forall not_payment (logs (scenario_run Severe 5000%float)))) /\
  (List.length
     (logs (app (turns (uninterrupted
                          (upload_ok scenario_env
                                     (scenario_report Severe 5000%float))
                          sample_file)
                       initialSystem))) = 2%nat /\
   Forall not_payment
     (logs (app (turns (uninterrupted
                          (upload_ok scenario_env
                                     (scenario_report Severe 5000%float))
                          sample_file)
                       initialSystem)))).
Proof.
  split; [|split].
  - apply (proj1 transcript_entries_by_branch scenario_env
             (scenario_report Moderate 3200%float)
             (setStep A2A_HANDSHAKE
                (setReport (Some (scenario_report Moderate 3200%float))
                   initialState))).
    reflexivity.
  - apply (proj1 transcript_entries_by_branch scenario_env
             (scenario_report Severe 5000%float)
             (setStep A2A_HANDSHAKE
                (setReport (Some (scenario_report Severe 5000%float))
                   initialState))).
    reflexivity.
  - apply (proj2 transcript_entries_by_branch
             (uninterrupted
                (upload_ok scenario_env (scenario_report Severe 5000%float))
                sample_file)
             {| ClaimResult.status := MANUAL_REVIEW
              ; ClaimResult.paymentInitiated := false
              ; ClaimResult.referenceId := "CLM-4FZYO82MV"
              ; ClaimResult.report := scenario_report Severe 5000%float |});
      reflexivity.
Defined.

(** C3, as the claim states it, fails.  One upload, approved, and one click
    on the reset button while its handshake waits for the first timer: the
    reset empties the transcript and cancels nothing, so the one protocol
    run that there is ends at COMPLETED beside a transcript that holds its
    evaluation and its settlement and not its proposal.  The PROCESSED
    entry is the first entry: no SENT entry stands before it. *)
Lemma transcript_order_lost_on_reset :
  let sys := turns reset_during_handshake initialSystem in
  pending sys = [] /\ step (app sys) = COMPLETED /\
  option_map ClaimResult.status (result (app sys)) = Some APPROVED /\
  map (fun e => (method (HandshakeLog.payload e), HandshakeLog.status e))
      (logs (app sys)) =
    [("EVALUATE_POLICY", PROCESSED); ("INITIATE_PAYMENT", SENT)] /\
  (forall x, In x (logs (app sys)) -> ~ is_proposal x) /\
  ~ processed_after_sent (logs (app sys)).
Proof.
  cbv zeta. split; [reflexivity|]. split; [reflexivity|].
  split; [reflexivity|]. split; [reflexivity|]. split.
  - intros x Hin Hx. vm_compute in Hin.
    destruct Hin as [<- | [<- | []]]; discriminate.
  - intros H. apply processed_after_sentb_iff in H.
    vm_compute in H. discriminate.
Qed.

(** C3, amended: in the transcript of an uninterrupted run, started on an
    empty transcript, the proposal is there, SENT by the requesting agent,
    and the evaluation is there, PROCESSED by the policy agent; the
    proposal stands before the evaluation; the evaluation stands before the
    settlement, which is SENT and is there exactly when the cost is below
    the threshold; and every PROCESSED entry has a SENT entry from the
    opposite agent before it.  The same order holds of the transcript after
    every action of a session at the page and, on the event loop, at every
    moment of an execution in which every reset comes when no handler is
    suspended. *)
Theorem transcript_order :
  (forall (env : HandshakeEnv) (r : DamageReport.t) (s : AppState),
     logs s = [] ->
     let l := logs (performA2AHandshake env r s) in
     (exists p e,
        In p l /\ is_proposal p /\
        HandshakeLog.status p = SENT /\ HandshakeLog.from p = GoogleAgent /\
        In e l /\ is_evaluation e /\
        HandshakeLog.status e = PROCESSED /\
        HandshakeLog.from e = SalesforceAgent) /\
     precedes is_proposal is_evaluation l /\
     precedes is_evaluation is_settlement l /\
     (forall x, In x l -> is_settlement x -> HandshakeLog.status x = SENT) /\
     ((exists x, In x l /\ is_settlement x) <-> isApproved r = true) /\
     processed_after_sent l) /\
  (forall acts : list (UploadEnv * UserAction),
     processed_after_sent (logs (session acts initialState))) /\
  (forall evs : list Event,
     resets_at_rest evs initialSystem = true ->
     let l := logs (app (turns evs initialSystem)) in
     precedes is_proposal is_evaluation l /\
     precedes is_evaluation is_settlement l /\
     (forall x, In x l -> is_settlement x -> HandshakeLog.status x = SENT) /\
     processed_after_sent l).
Proof.
  split; [|split].
  - intros env r s Hempty l.
    split; [|split; [|split; [|split; [|split]]]];
      try (subst l; apply run_processed_after_sent; exact Hempty);
      subst l; rewrite performA2AHandshake_logs, Hempty; simpl;
      unfold precedes, is_proposal, is_evaluation, is_settlement.
    + exists (stamp (now_propose env) (proposal r)),
             (stamp (now_evaluate env) (evaluation (isApproved r))).
      simpl. repeat split; auto.
    + intros i j x y Hi Hj Hx Hy.
      destruct (isApproved r); at_position i; at_position j;
        injection Hi as <-; injection Hj as <-; simpl in *;
        try discriminate; lia.
    + intros i j x y Hi Hj Hx Hy.
      destruct (isApproved r); at_position i; at_position j;
        injection Hi as <-; injection Hj as <-; simpl in *;
        try discriminate; lia.
    + intros x Hin Hx.
      destruct (isApproved r); simpl in Hin;
        repeat (destruct Hin as [<- | Hin]; [simpl in *; try discriminate|]);
        try contradiction; reflexivity.
    + destruct (isApproved r); split; try discriminate; auto.
      * intros _. exists (stamp (now_settle env) (settlement r)).
        simpl. auto.
      * intros (x & Hin & Hx). simpl in Hin.
        repeat (destruct Hin as [<- | Hin]; [simpl in Hx; discriminate|]).
        contradiction.
  - intros acts. apply session_ok_session, session_ok_initial.
  - intros evs Hrest l. subst l.
    destruct (at_rest_from_initial evs Hrest) as [Hok Hshape].
    destruct (run_shape_order _ Hshape) as (H1 & H2 & H3).
    destruct (phase_ok_run_prefix _ Hok) as (k & _ & Hpre).
    repeat split; try assumption.
    exact (run_prefix_processed_after_sent k _ Hpre).
Qed.

(** The approved scenario run alone, and on the event loop the approved
    scenario, a reset once it has completed, and a second upload: both
    transcripts in order. *)
Lemma transcript_order_witness :
  (let l := logs (performA2AHandshake scenario_env
                    (scenario_report Moderate 3200%float) initialState) in
   (exists p e,
      In p l /\ is_proposal p /\
      HandshakeLog.status p = SENT /\ HandshakeLog.from p = GoogleAgent /\
      In e l /\ is_evaluation e /\
      HandshakeLog.status e = PROCESSED /\
      HandshakeLog.from e = SalesforceAgent) /\
   precedes is_proposal is_evaluation l /\
   precedes is_evaluation is_settlement l /\
   (forall x, In x l -> is_settlement x -> HandshakeLog.status x = SENT) /\
   ((exists x, In x l /\ is_settlement x) <->
    isApproved (scenario_report Moderate 3200%float) = true) /\
   processed_after_sent l) /\
  (let l := logs (app (turns (uninterrupted
                                (upload_ok scenario_env
                                   (scenario_report Moderate 3200%float))
                                sample_file ++
                              EvReset ::
                              uninterrupted
                                (upload_ok other_env
                                   (other_report 12000%float))
                                sample_file)
                             initialSystem)) in
   precedes is_proposal is_evaluation l /\
   precedes is_evaluation is_settlement l /\
   (forall x, In x l -> is_settlement x -> HandshakeLog.status x = SENT) /\
   processed_after_sent l).
Proof.
  split.
  - apply (proj1 transcript_order scenario_env
             (scenario_report Moderate 3200%float) initialState).
    reflexivity.
  - apply (proj2 (proj2 transcript_order)
             (uninterrupted
                (upload_ok scenario_env (scenario_report Moderate 3200%float))
                sample_file ++
              EvReset ::
              uninterrupted
                (upload_ok other_env (other_report 12000%float))
                sample_file)).
    reflexivity.
Defined.
